(** * Visual Architecture Database (UI_project/app.jsx): query, selection,
      commit and navigation logic

    A shallow embedding of the state-handling code of [app.jsx]: the filter
    predicate, the tag and architect selection handlers, the validate and
    commit handlers of the two pages, the results cursor, the tag pivot and
    the [App] coordinator, followed by the properties of that code.

    Conventions of the embedding.
    - A JavaScript string is a [string]; its characters stand for the code
      units that [===], [includes] and the default [sort] compare.
    - A nullable string ([string | null], or a possibly absent JSON field) is
      an [option string]; [None] is [null] / [undefined].
    - Array indices and the cursor are in [Z]; [%] is [Z.rem] (the sign of the
      dividend, as in JavaScript).
    - A [Set] is the list of its elements in insertion order.
    - React state is passed explicitly: a handler maps the state before the
      event to the state after it, and [App.render] settles mounting and the
      dependency-guarded effects. *)

From Stdlib Require Import List String Ascii Bool ZArith Arith Lia.
From Stdlib Require Import Permutation Sorted.
Import ListNotations.

Local Open Scope string_scope.
Local Open Scope list_scope.

(** ** JavaScript primitives used by the handlers *)

Module JS.

(** [Boolean(s)] for a string: only the empty string is falsy. *)
Definition truthy_string (s : string) : bool :=
  match s with
  | EmptyString => false
  | String _ _ => true
  end.

(** [Boolean(v)] for a nullable string: [null], [undefined] and [""] are
    falsy. *)
Definition truthy (v : option string) : bool :=
  match v with
  | None => false
  | Some s => truthy_string s
  end.

(** [v || null]. *)
Definition or_null (v : option string) : option string :=
  if truthy v then v else None.

(** [a === b] on nullable strings. *)
Definition strict_equals (a b : option string) : bool :=
  match a, b with
  | None, None => true
  | Some x, Some y => String.eqb x y
  | _, _ => false
  end.

(** [arr.includes(x)]. *)
Definition includes (arr : list string) (x : string) : bool :=
  existsb (String.eqb x) arr.

(** [arr.every(p)]. *)
Definition every {A : Type} (p : A -> bool) (arr : list A) : bool :=
  forallb p arr.

(** [arr.filter(Boolean)] on an array of nullable strings: the truthy
    entries, as strings. *)
Fixpoint filter_Boolean (arr : list (option string)) : list string :=
  match arr with
  | [] => []
  | v :: rest =>
      match v with
      | Some s => if truthy_string s then s :: filter_Boolean rest
                  else filter_Boolean rest
      | None => filter_Boolean rest
      end
  end.

(** The default comparison of [Array.prototype.sort]: strings by code
    units, lexicographically. *)
Definition sort_leb (x y : string) : bool := String.leb x y.

Fixpoint sort_insert (x : string) (sorted : list string) : list string :=
  match sorted with
  | [] => [x]
  | y :: rest => if sort_leb x y then x :: y :: rest
                 else y :: sort_insert x rest
  end.

(** [arr.sort()] with the default comparison. *)
Fixpoint sort (arr : list string) : list string :=
  match arr with
  | [] => []
  | x :: rest => sort_insert x (sort rest)
  end.

(** [arr[i]] for a numeric index: [undefined] out of range. *)
Definition index {A : Type} (arr : list A) (i : Z) : option A :=
  if (i <? 0)%Z then None else nth_error arr (Z.to_nat i).

(** [arr.length]. *)
Definition length {A : Type} (arr : list A) : Z := Z.of_nat (List.length arr).

End JS.

(** ** [Set] of strings, in insertion order *)

Module JSSet.

Definition t := list string.

Definition empty : t := [].

(** [set.has(x)]. *)
Definition has (s : t) (x : string) : bool := existsb (String.eqb x) s.

(** [set.add(x)]: appended unless already there. *)
Definition add (s : t) (x : string) : t :=
  if has s x then s else s ++ [x].

(** [set.delete(x)]. *)
Definition delete (s : t) (x : string) : t :=
  filter (fun y => negb (String.eqb x y)) s.

(** [set.size]. *)
Definition size (s : t) : Z := Z.of_nat (List.length s).

(** [new Set(iterable)]: the elements are added in order. *)
Definition of_array (arr : list string) : t := fold_left add arr empty.

(** [Array.from(set)] and [[...set]]. *)
Definition to_array (s : t) : list string := s.

(** [new Set(prev)] for a set [prev]. *)
Definition copy (s : t) : t := of_array (to_array s).

(** Well-formedness of a [Set]: no element twice. *)
Definition wf (s : t) : Prop := NoDup s.

(** Equality as sets: the same members. *)
Definition same_members (s1 s2 : t) : Prop :=
  forall x, has s1 x = has s2 x.

End JSSet.

(** ** Data model *)

(** An entry of [appData.images]. [img_architect] is [None] when the field
    is [null] or absent; [img_tags] is [None] when [img.tags] is absent. *)
Record ImageRecord := {
  imageUrl : string;
  img_architect : option string;
  img_tags : option (list string)
}.

(** The search criteria object [{ tags, architect }]. *)
Record Criterion := {
  tags : list string;
  architect : option string
}.

(** [{ tags: [], architect: null }]. *)
Definition emptyCriterion : Criterion := {| tags := []; architect := None |}.

Inductive View := search | results.

(** [img.tags && img.tags.includes(tag)], as the truth value [every] reads. *)
Definition tags_include (img : ImageRecord) (tag : string) : bool :=
  match img_tags img with
  | None => false
  | Some ts => JS.includes ts tag
  end.

(** ** ArchitectSelector *)

Module ArchitectSelector.

(** [handleChange(architect)]: the value handed to [onArchitectSelect]. *)
Definition handleChange (selectedArchitect architect : option string)
  : option string :=
  if JS.strict_equals selectedArchitect architect then None else architect.

End ArchitectSelector.

(** The architect list effect, shared verbatim by [FilterSentence],
    [SearchPage] and [ResultsPage]:
    [if (images && images.length > 0)
       setArchitectList([...new Set(images.map(img => img.architect)
                                          .filter(Boolean))].sort())]. *)
Definition architectList_effect (images : list ImageRecord)
  (architectList : list string) : list string :=
  if (JS.length images >? 0)%Z then
    JS.sort (JSSet.to_array
               (JSSet.of_array (JS.filter_Boolean (map img_architect images))))
  else architectList.

(** ** FilterSentence (quick search) *)

Module FilterSentence.

(** [slotValues]: the object's own keys with their values, in insertion
    order. *)
Definition SlotValues := list (string * string).

(** [slotValues[key]]. *)
Fixpoint get (slotValues : SlotValues) (key : string) : option string :=
  match slotValues with
  | [] => None
  | (k, v) :: rest => if String.eqb k key then Some v else get rest key
  end.

(** [handleSearch]: the criteria handed to [onSearch], when it is called. *)
Definition handleSearch (slotValues : SlotValues) : option Criterion :=
  let selectedTags :=
    map snd
      (filter (fun entry => negb (String.eqb (fst entry) "architect"))
              slotValues) in
  let architect := JS.or_null (get slotValues "architect") in
  if (JS.length selectedTags >? 0)%Z || JS.truthy architect
  then Some {| tags := selectedTags; architect := architect |}
  else None.

End FilterSentence.

(** ** SearchPage *)

Module SearchPage.

Record State := {
  selectedTags : JSSet.t;
  selectedArchitect : option string;
  architectList : list string;
  searchError : option string
}.

(** The [useState] initial values. *)
Definition initial : State :=
  {| selectedTags := JSSet.empty;
     selectedArchitect := None;
     architectList := [];
     searchError := None |}.

(** Mounting: the initial values, then the [[images]] effect. *)
Definition mount (images : list ImageRecord) : State :=
  {| selectedTags := selectedTags initial;
     selectedArchitect := selectedArchitect initial;
     architectList := architectList_effect images (architectList initial);
     searchError := searchError initial |}.

Definition handleTagSelect (tag : string) (s : State) : State :=
  {| selectedTags :=
       (let prev := selectedTags s in
        let newSet := JSSet.copy prev in
        if JSSet.has newSet tag then JSSet.delete newSet tag
        else JSSet.add newSet tag);
     selectedArchitect := selectedArchitect s;
     architectList := architectList s;
     searchError := None |}.

Definition handleArchitectSelect (architect : option string) (s : State)
  : State :=
  {| selectedTags := selectedTags s;
     selectedArchitect := architect;
     architectList := architectList s;
     searchError := None |}.

Definition removeTag (tagToRemove : string) (s : State) : State :=
  {| selectedTags :=
       (let prev := selectedTags s in
        let newSet := JSSet.copy prev in
        JSSet.delete newSet tagToRemove);
     selectedArchitect := selectedArchitect s;
     architectList := architectList s;
     searchError := searchError s |}.

Definition removeArchitect (s : State) : State :=
  {| selectedTags := selectedTags s;
     selectedArchitect := None;
     architectList := architectList s;
     searchError := searchError s |}.

(** The callback of [images.filter] in [handleSearch]. *)
Definition handleSearch_filter (criteria : Criterion) (img : ImageRecord)
  : bool :=
  let archMatch :=
    negb (JS.truthy (architect criteria))
    || JS.strict_equals (img_architect img) (architect criteria) in
  if negb archMatch then false
  else
    let tagsMatch := JS.every (fun tag => tags_include img tag)
                              (tags criteria) in
    if negb tagsMatch then false else true.

Definition noImagesFound : string :=
  "No images found matching the selected criteria.".

(** [handleSearch(criteria)]: the new local state and, when [onSearch] is
    called, its argument. *)
Definition handleSearch (images : list ImageRecord) (criteria : Criterion)
  (s : State) : State * option Criterion :=
  let results := filter (handleSearch_filter criteria) images in
  if (JS.length results >? 0)%Z then
    ({| selectedTags := selectedTags s;
        selectedArchitect := selectedArchitect s;
        architectList := architectList s;
        searchError := None |},
     Some criteria)
  else
    ({| selectedTags := selectedTags s;
        selectedArchitect := selectedArchitect s;
        architectList := architectList s;
        searchError := Some noImagesFound |},
     None).

(** [selectedTags.size > 0 || selectedArchitect], as a condition. *)
Definition hasSelection (s : State) : bool :=
  (JSSet.size (selectedTags s) >? 0)%Z || JS.truthy (selectedArchitect s).

(** The criteria built by the "Search Images" button. *)
Definition buttonCriteria (s : State) : Criterion :=
  {| tags := JSSet.to_array (selectedTags s);
     architect := selectedArchitect s |}.

End SearchPage.

(** ** ResultsPage *)

Module ResultsPage.

(** The cells of [ResultsPage] that its handlers of the search, the cursor,
    the pivot and the sidebar read or write. The two cells of the image
    frame, [imageLoading] and [imageError], are read and written by no
    handler here; they are [ResultsView.ImageStatus], and the effect that
    resets them when the cursor moves is [navigation_frame]. *)
Record State := {
  currentIndex : Z;
  showConfirmModal : bool;
  tagToSearch : option string;
  isSidebarOpen : bool;
  sidebarSelectedTags : JSSet.t;
  sidebarSelectedArchitect : option string;
  sidebarSearchError : option string;
  architectList : list string;
  (** the identity of the [searchCriteria] object the [[searchCriteria]]
      effects last ran for (their dependency array) *)
  effectCriteria : nat
}.

(** The callback of [images.filter] in the [filteredImages] memo. *)
Definition filteredImages_filter (searchCriteria : Criterion)
  (img : ImageRecord) : bool :=
  let architect := architect searchCriteria in
  let tags := tags searchCriteria in
  let archMatch :=
    negb (JS.truthy architect)
    || JS.strict_equals (img_architect img) architect in
  if negb archMatch then false
  else
    let tagsMatch := JS.every (fun tag => tags_include img tag) tags in
    if negb tagsMatch then false else true.

Definition filteredImages (images : list ImageRecord)
  (searchCriteria : Criterion) : list ImageRecord :=
  filter (filteredImages_filter searchCriteria) images.

Definition totalImages (images : list ImageRecord)
  (searchCriteria : Criterion) : Z :=
  JS.length (filteredImages images searchCriteria).

(** [totalImages > 0 ? filteredImages[currentIndex] : null]. *)
Definition currentImage (images : list ImageRecord)
  (searchCriteria : Criterion) (s : State) : option ImageRecord :=
  if (totalImages images searchCriteria >? 0)%Z
  then JS.index (filteredImages images searchCriteria) (currentIndex s)
  else None.

Definition setCurrentIndex (f : Z -> Z) (s : State) : State :=
  {| currentIndex := f (currentIndex s);
     showConfirmModal := showConfirmModal s;
     tagToSearch := tagToSearch s;
     isSidebarOpen := isSidebarOpen s;
     sidebarSelectedTags := sidebarSelectedTags s;
     sidebarSelectedArchitect := sidebarSelectedArchitect s;
     sidebarSearchError := sidebarSearchError s;
     architectList := architectList s;
     effectCriteria := effectCriteria s |}.

(** The effects that depend on [[searchCriteria]]: the sidebar is seeded
    from the criteria and the cursor returns to the first image. *)
Definition searchCriteria_effects (searchCriteria : Criterion) (id : nat)
  (s : State) : State :=
  {| currentIndex := 0;
     showConfirmModal := showConfirmModal s;
     tagToSearch := tagToSearch s;
     isSidebarOpen := isSidebarOpen s;
     sidebarSelectedTags := JSSet.of_array (tags searchCriteria);
     sidebarSelectedArchitect := JS.or_null (architect searchCriteria);
     sidebarSearchError := sidebarSearchError s;
     architectList := architectList s;
     effectCriteria := id |}.

(** The [useState] initial values, for the [searchCriteria] prop. *)
Definition initial (searchCriteria : Criterion) (id : nat) : State :=
  {| currentIndex := 0;
     showConfirmModal := false;
     tagToSearch := None;
     isSidebarOpen := false;
     sidebarSelectedTags := JSSet.of_array (tags searchCriteria);
     sidebarSelectedArchitect := JS.or_null (architect searchCriteria);
     sidebarSearchError := None;
     architectList := [];
     effectCriteria := id |}.

(** Mounting: the initial values, then every effect once. *)
Definition mount (images : list ImageRecord) (searchCriteria : Criterion)
  (id : nat) : State :=
  let s := initial searchCriteria id in
  let s := searchCriteria_effects searchCriteria id s in
  {| currentIndex := currentIndex s;
     showConfirmModal := showConfirmModal s;
     tagToSearch := tagToSearch s;
     isSidebarOpen := isSidebarOpen s;
     sidebarSelectedTags := sidebarSelectedTags s;
     sidebarSelectedArchitect := sidebarSelectedArchitect s;
     sidebarSearchError := sidebarSearchError s;
     architectList := architectList_effect images (architectList s);
     effectCriteria := effectCriteria s |}.

(** A render with a [searchCriteria] prop of identity [id]: the effects
    run when the dependency is another object than at their last run. *)
Definition update (searchCriteria : Criterion) (id : nat) (s : State)
  : State :=
  if Nat.eqb (effectCriteria s) id then s
  else searchCriteria_effects searchCriteria id s.

Definition handleNext (totalImages : Z) (s : State) : State :=
  setCurrentIndex (fun prevIndex => Z.rem (prevIndex + 1) totalImages) s.

Definition handlePrevious (totalImages : Z) (s : State) : State :=
  setCurrentIndex
    (fun prevIndex => Z.rem (prevIndex - 1 + totalImages) totalImages) s.

Definition setModal (show : bool) (tag : option string) (s : State)
  : State :=
  {| currentIndex := currentIndex s;
     showConfirmModal := show;
     tagToSearch := tag;
     isSidebarOpen := isSidebarOpen s;
     sidebarSelectedTags := sidebarSelectedTags s;
     sidebarSelectedArchitect := sidebarSelectedArchitect s;
     sidebarSearchError := sidebarSearchError s;
     architectList := architectList s;
     effectCriteria := effectCriteria s |}.

Definition handleOtherTagClick (tag : string) (s : State) : State :=
  setModal true (Some tag) s.

(** [confirmNewSearch]: the new local state and, when [onSearchTag] is
    called, its argument. *)
Definition confirmNewSearch (s : State) : State * option Criterion :=
  (setModal false None s,
   match tagToSearch s with
   | Some tag =>
       if JS.truthy_string tag
       then Some {| tags := [tag]; architect := None |}
       else None
   | None => None
   end).

Definition cancelNewSearch (s : State) : State :=
  setModal false None s.

Definition setSidebar (open : bool) (selTags : JSSet.t)
  (selArchitect : option string) (err : option string) (s : State)
  : State :=
  {| currentIndex := currentIndex s;
     showConfirmModal := showConfirmModal s;
     tagToSearch := tagToSearch s;
     isSidebarOpen := open;
     sidebarSelectedTags := selTags;
     sidebarSelectedArchitect := selArchitect;
     sidebarSearchError := err;
     architectList := architectList s;
     effectCriteria := effectCriteria s |}.

Definition toggleSidebar (s : State) : State :=
  setSidebar (negb (isSidebarOpen s)) (sidebarSelectedTags s)
             (sidebarSelectedArchitect s) (sidebarSearchError s) s.

Definition handleSidebarTagSelect (tag : string) (s : State) : State :=
  setSidebar (isSidebarOpen s)
    (let prev := sidebarSelectedTags s in
     let newSet := JSSet.copy prev in
     if JSSet.has newSet tag then JSSet.delete newSet tag
     else JSSet.add newSet tag)
    (sidebarSelectedArchitect s) None s.

Definition handleSidebarArchitectSelect (architect : option string)
  (s : State) : State :=
  setSidebar (isSidebarOpen s) (sidebarSelectedTags s)
    (if JS.strict_equals (sidebarSelectedArchitect s) architect
     then None else architect)
    None s.

(** The callback of [images.filter] in [handleUpdateSearch]. *)
Definition handleUpdateSearch_filter (newCriteria : Criterion)
  (img : ImageRecord) : bool :=
  let archMatch :=
    negb (JS.truthy (architect newCriteria))
    || JS.strict_equals (img_architect img) (architect newCriteria) in
  if negb archMatch then false
  else
    let tagsMatch := JS.every (fun tag => tags_include img tag)
                              (tags newCriteria) in
    if negb tagsMatch then false else true.

Definition noImagesFound : string :=
  "No images found matching the selected filters.".

(** The criteria [handleUpdateSearch] builds from the sidebar. *)
Definition newCriteria (s : State) : Criterion :=
  {| tags := JSSet.to_array (sidebarSelectedTags s);
     architect := sidebarSelectedArchitect s |}.

(** [handleUpdateSearch]: the new local state and, when [onSearchTag] is
    called, its argument. *)
Definition handleUpdateSearch (images : list ImageRecord) (s : State)
  : State * option Criterion :=
  let newCriteria := newCriteria s in
  let prospectiveResults :=
    filter (handleUpdateSearch_filter newCriteria) images in
  if (JS.length prospectiveResults >? 0)%Z then
    (setSidebar false (sidebarSelectedTags s) (sidebarSelectedArchitect s)
                None s,
     Some newCriteria)
  else
    (setSidebar (isSidebarOpen s) (sidebarSelectedTags s)
                (sidebarSelectedArchitect s) (Some noImagesFound) s,
     None).

(** The "Update Search" button's [disabled] attribute. *)
Definition updateDisabled (s : State) : bool :=
  (JSSet.size (sidebarSelectedTags s) =? 0)%Z
  && negb (JS.truthy (sidebarSelectedArchitect s)).

End ResultsPage.

(** ** App *)

Module App.

(** The page component that is mounted, with its local state. *)
Inductive Page :=
| SearchPageM (s : SearchPage.State)
| ResultsPageM (r : ResultsPage.State).

(** The state of [App] once the dataset is loaded, and of the page under
    it. Every caller of [setCurrentSearchCriteria] passes an object
    literal it has just built, so the criteria object is a new one at each
    call: [criteriaId] is its identity (what React's dependency check
    [Object.is] compares) and [nextId] the next unused one. *)
Record State := {
  view : View;
  images : list ImageRecord;
  currentSearchCriteria : Criterion;
  criteriaId : nat;
  nextId : nat;
  page : Page
}.

Definition setPage (p : Page) (st : State) : State :=
  {| view := view st;
     images := images st;
     currentSearchCriteria := currentSearchCriteria st;
     criteriaId := criteriaId st;
     nextId := nextId st;
     page := p |}.

(** [handleSearch(criteria)]. *)
Definition handleSearch (criteria : Criterion) (st : State) : State :=
  {| view := results;
     images := images st;
     currentSearchCriteria := criteria;
     criteriaId := nextId st;
     nextId := S (nextId st);
     page := page st |}.

(** [handleHome()]. *)
Definition handleHome (st : State) : State :=
  {| view := search;
     images := images st;
     currentSearchCriteria := emptyCriterion;
     criteriaId := nextId st;
     nextId := S (nextId st);
     page := page st |}.

(** A callback prop bound to [handleSearch], called or not. *)
Definition onSearch (call : option Criterion) (st : State) : State :=
  match call with
  | Some criteria => handleSearch criteria st
  | None => st
  end.

(** [renderView], settled: the page of the current view is mounted (the
    other one unmounted, its state lost) or updated with its props. *)
Definition render (st : State) : State :=
  match view st, page st with
  | search, SearchPageM _ => st
  | search, ResultsPageM _ =>
      setPage (SearchPageM (SearchPage.mount (images st))) st
  | results, SearchPageM _ =>
      setPage (ResultsPageM
                 (ResultsPage.mount (images st) (currentSearchCriteria st)
                                    (criteriaId st))) st
  | results, ResultsPageM r =>
      setPage (ResultsPageM
                 (ResultsPage.update (currentSearchCriteria st)
                                     (criteriaId st) r)) st
  end.

(** The application once [appData] is loaded: the search page over the
    initial empty criteria. *)
Definition loaded (images : list ImageRecord) : State :=
  {| view := search;
     images := images;
     currentSearchCriteria := emptyCriterion;
     criteriaId := 0;
     nextId := 1;
     page := SearchPageM (SearchPage.mount images) |}.

(** What the user can do. An event carries the value picked: a tag of the
    taxonomy browser, an architect radio ([None] is "Any / None"), a tag
    button under the displayed image, or, for the quick search, the slot
    values [FilterSentence] holds when its button is pressed. The taxonomy
    and option lists are not part of the state, so any string may be
    picked; the tag buttons under the image are those of its tags. *)
Inductive Event :=
| QuickSearch (slotValues : FilterSentence.SlotValues)
| SelectTag (tag : string)
| SelectArchitect (architect : option string)
| RemoveTag (tag : string)
| RemoveArchitect
| SearchImages
| Next
| Previous
| OtherTagClick (tag : string)
| ConfirmNewSearch
| CancelNewSearch
| ToggleSidebar
| SidebarSelectTag (tag : string)
| SidebarSelectArchitect (architect : option string)
| UpdateSearch
| Home.

(** [SearchPage]'s [handleSearch(criteria)] under [App]: [onSearch] is
    [handleSearch]. *)
Definition searchPage_handleSearch (criteria : Criterion)
  (s : SearchPage.State) (st : State) : State :=
  let (s', call) := SearchPage.handleSearch (images st) criteria s in
  onSearch call (setPage (SearchPageM s') st).

(** [ResultsPage]'s [handleUpdateSearch()] under [App]: [onSearchTag] is
    [handleSearch]. *)
Definition resultsPage_handleUpdateSearch (r : ResultsPage.State)
  (st : State) : State :=
  let (r', call) := ResultsPage.handleUpdateSearch (images st) r in
  onSearch call (setPage (ResultsPageM r') st).

(** [ResultsPage]'s [confirmNewSearch()] under [App]. *)
Definition resultsPage_confirmNewSearch (r : ResultsPage.State)
  (st : State) : State :=
  let (r', call) := ResultsPage.confirmNewSearch r in
  onSearch call (setPage (ResultsPageM r') st).

(** Whether [tag] is one of the tag buttons under the displayed image. *)
Definition tagButtonShown (tag : string) (r : ResultsPage.State)
  (st : State) : bool :=
  match ResultsPage.currentImage (images st) (currentSearchCriteria st) r
  with
  | Some img => tags_include img tag
  | None => false
  end.

(** Whether the previous / next buttons are rendered. *)
Definition navigationShown (r : ResultsPage.State) (st : State) : bool :=
  match ResultsPage.currentImage (images st) (currentSearchCriteria st) r
  with
  | Some _ =>
      (ResultsPage.totalImages (images st) (currentSearchCriteria st) >? 1)%Z
  | None => false
  end.

(** The handler an event runs; an event whose control is not rendered (or
    is disabled) runs none. *)
Definition dispatch (e : Event) (st : State) : State :=
  match page st with
  | SearchPageM s =>
      match e with
      | QuickSearch slotValues =>
          match FilterSentence.handleSearch slotValues with
          | Some criteria => searchPage_handleSearch criteria s st
          | None => st
          end
      | SelectTag tag =>
          setPage (SearchPageM (SearchPage.handleTagSelect tag s)) st
      | SelectArchitect architect =>
          setPage (SearchPageM
                     (SearchPage.handleArchitectSelect
                        (ArchitectSelector.handleChange
                           (SearchPage.selectedArchitect s) architect) s))
                  st
      | RemoveTag tag =>
          setPage (SearchPageM (SearchPage.removeTag tag s)) st
      | RemoveArchitect =>
          setPage (SearchPageM (SearchPage.removeArchitect s)) st
      | SearchImages =>
          if SearchPage.hasSelection s
          then searchPage_handleSearch (SearchPage.buttonCriteria s) s st
          else st
      | _ => st
      end
  | ResultsPageM r =>
      match e with
      | Next =>
          if navigationShown r st
          then setPage (ResultsPageM
                          (ResultsPage.handleNext
                             (ResultsPage.totalImages
                                (images st) (currentSearchCriteria st)) r))
                       st
          else st
      | Previous =>
          if navigationShown r st
          then setPage (ResultsPageM
                          (ResultsPage.handlePrevious
                             (ResultsPage.totalImages
                                (images st) (currentSearchCriteria st)) r))
                       st
          else st
      | OtherTagClick tag =>
          if tagButtonShown tag r st
          then setPage (ResultsPageM (ResultsPage.handleOtherTagClick tag r))
                       st
          else st
      | ConfirmNewSearch =>
          if ResultsPage.showConfirmModal r
          then resultsPage_confirmNewSearch r st
          else st
      | CancelNewSearch =>
          if ResultsPage.showConfirmModal r
          then setPage (ResultsPageM (ResultsPage.cancelNewSearch r)) st
          else st
      | ToggleSidebar =>
          setPage (ResultsPageM (ResultsPage.toggleSidebar r)) st
      | SidebarSelectTag tag =>
          setPage (ResultsPageM (ResultsPage.handleSidebarTagSelect tag r))
                  st
      | SidebarSelectArchitect architect =>
          setPage (ResultsPageM
                     (ResultsPage.handleSidebarArchitectSelect
                        (ArchitectSelector.handleChange
                           (ResultsPage.sidebarSelectedArchitect r)
                           architect) r))
                  st
      | UpdateSearch =>
          if ResultsPage.updateDisabled r then st
          else resultsPage_handleUpdateSearch r st
      | Home => handleHome st
      | _ => st
      end
  end.

(** One event: its handler, then the render it causes. *)
Definition step (e : Event) (st : State) : State := render (dispatch e st).

(** The states the loaded application can be in. *)
Inductive reachable (imgs : list ImageRecord) : State -> Prop :=
| reachable_loaded : reachable imgs (loaded imgs)
| reachable_step e st :
    reachable imgs st -> reachable imgs (step e st).

End App.

(** ** The match relation, in the words of the specification *)

(** [tag] is present in [img.tags]. *)
Definition tag_present (img : ImageRecord) (tag : string) : Prop :=
  exists ts, img_tags img = Some ts /\ In tag ts.

(** The match relation as the specification words it: the criterion's
    architect is null or equal to the image's, and every tag of the criterion
    is a tag of the image. *)
Definition matches_spec (img : ImageRecord) (c : Criterion) : Prop :=
  (architect c = None \/ img_architect img = architect c)
  /\ forall tag, In tag (tags c) -> tag_present img tag.

(** The order [sort] arranges strings in. *)
Definition sort_le (x y : string) : Prop := JS.sort_leb x y = true.

(** The architect option list as the specification words it: every
    non-absent architect field, without duplicates, sorted. *)
Definition collect_architects (images : list ImageRecord) : list string :=
  flat_map (fun img => match img_architect img with
                       | Some a => [a]
                       | None => []
                       end) images.

Definition distinctArchitects_spec (images : list ImageRecord) : list string :=
  JS.sort (nodup string_dec (collect_architects images)).

(** The updater that [handleTagSelect] and [handleSidebarTagSelect] both
    pass to their setter, as a function of the previous set. *)
Definition toggleTag (tag : string) (prev : JSSet.t) : JSSet.t :=
  let newSet := JSSet.copy prev in
  if JSSet.has newSet tag then JSSet.delete newSet tag
  else JSSet.add newSet tag.

(** A run of events from a state. *)
Definition run (events : list App.Event) (st : App.State) : App.State :=
  fold_left (fun st e => App.step e st) events st.

(** The results cursor, when the results page is mounted. *)
Definition cursor (st : App.State) : option Z :=
  match App.page st with
  | App.SearchPageM _ => None
  | App.ResultsPageM r => Some (ResultsPage.currentIndex r)
  end.

(** The local error shown by the mounted page: [searchError] on the search
    page, [sidebarSearchError] in the sidebar of the results page. *)
Definition localError (st : App.State) : option string :=
  match App.page st with
  | App.SearchPageM s => SearchPage.searchError s
  | App.ResultsPageM r => ResultsPage.sidebarSearchError r
  end.

(** The tag of the pending pivot confirmation, if any. *)
Definition localPending (st : App.State) : option string :=
  match App.page st with
  | App.SearchPageM _ => None
  | App.ResultsPageM r => ResultsPage.tagToSearch r
  end.

(** The settled states of the application: the mounted page is the page of
    the view, the criteria object is an allocated one, and the effects of the
    results page have run for it. *)
Definition settled (st : App.State) : Prop :=
  App.criteriaId st < App.nextId st
  /\ match App.page st with
     | App.SearchPageM _ => App.view st = search
     | App.ResultsPageM r =>
         App.view st = results
         /\ ResultsPage.effectCriteria r = App.criteriaId st
     end.

(** Two page states of the same component, the second with the effect
    dependency of the first: how a handler may change the mounted page. *)
Definition same_page_kind (p p' : App.Page) : Prop :=
  match p, p' with
  | App.SearchPageM _, App.SearchPageM _ => True
  | App.ResultsPageM r, App.ResultsPageM r' =>
      ResultsPage.effectCriteria r' = ResultsPage.effectCriteria r
  | _, _ => False
  end.

(** The pending pivot tag, if any, is a tag of some image of the dataset. *)
Definition pivot_from_dataset (st : App.State) : Prop :=
  match App.page st with
  | App.SearchPageM _ => True
  | App.ResultsPageM r =>
      forall tag, ResultsPage.tagToSearch r = Some tag ->
                  exists img, In img (App.images st)
                              /\ tags_include img tag = true
  end.

(** The dataset of the specification's scenario, and two records with an
    empty string where a name is expected. *)
Module Scenario.

Definition A : ImageRecord :=
  {| imageUrl := "a.jpg";
     img_architect := Some "Foo";
     img_tags := Some ["Arch"; "Window"] |}.

Definition B : ImageRecord :=
  {| imageUrl := "b.jpg";
     img_architect := Some "Bar";
     img_tags := Some ["Arch"] |}.

Definition dataset : list ImageRecord := [A; B].

(** An image whose [architect] field is the empty string. *)
Definition unnamed : ImageRecord :=
  {| imageUrl := "c.jpg";
     img_architect := Some "";
     img_tags := Some ["Arch"] |}.

(** An image one of whose tags is the empty string. *)
Definition blankTag : ImageRecord :=
  {| imageUrl := "d.jpg";
     img_architect := Some "Foo";
     img_tags := Some ["Arch"; ""] |}.

End Scenario.

(** ** Further components of [app.jsx] *)

(** A plain object used as a map from string keys: its own properties with
    their values, in insertion order. *)
Module JSObject.

Definition t (V : Type) := list (string * V).

(** [o[key]] for an own property of [o]; [None] when [o] has no own
    property [key] (the lookup then goes on in [Object.prototype], see
    [inherited]). *)
Fixpoint get {V : Type} (o : t V) (key : string) : option V :=
  match o with
  | [] => None
  | (k, v) :: rest => if String.eqb k key then Some v else get rest key
  end.

(** The property names an object written [{ ... }] inherits from
    [Object.prototype]: the standard ones and those of the web-browser
    annex. Each holds a function or an object, which is a truthy value. *)
Definition objectPrototype : list string :=
  ["constructor"; "hasOwnProperty"; "isPrototypeOf"; "propertyIsEnumerable";
   "toLocaleString"; "toString"; "valueOf"; "__proto__";
   "__defineGetter__"; "__defineSetter__"; "__lookupGetter__";
   "__lookupSetter__"].

(** [key] is an inherited property name. *)
Definition inherited (key : string) : bool :=
  existsb (String.eqb key) objectPrototype.

(** [o[key] = v], and [{ ...o, [key]: v }]: an existing key keeps its place,
    a new one comes last. *)
Fixpoint set {V : Type} (o : t V) (key : string) (v : V) : t V :=
  match o with
  | [] => [(key, v)]
  | (k, w) :: rest =>
      if String.eqb k key then (k, v) :: rest else (k, w) :: set rest key v
  end.

(** [delete o[key]]. *)
Definition delete {V : Type} (o : t V) (key : string) : t V :=
  filter (fun entry => negb (String.eqb (fst entry) key)) o.

(** [Object.keys(o)]. *)
Definition keys {V : Type} (o : t V) : list string := map fst o.

(** An object holds a key once. *)
Definition wf {V : Type} (o : t V) : Prop := NoDup (keys o).

End JSObject.

(** The [taxonomy] document. *)
Module Taxonomy.

Record SubCategory := {
  name : string;
  tags : list string
}.

Record Category := {
  category : string;
  subCategories : list SubCategory
}.

Definition t := list Category.

End Taxonomy.

(** [FilterSentence]: the slot options and the slot state. *)
Module Slots.

(** The [allTags] memo: [tags[subCat.name] = subCat.tags] over every
    subcategory of every category, in document order. *)
Definition allTags (taxonomy : Taxonomy.t) : JSObject.t (list string) :=
  fold_left
    (fun tags cat =>
       fold_left
         (fun tags subCat =>
            JSObject.set tags (Taxonomy.name subCat) (Taxonomy.tags subCat))
         (Taxonomy.subCategories cat) tags)
    taxonomy [].

(** [allTags[name] || []], the options of a tag slot. *)
Definition options (taxonomy : Taxonomy.t) (name : string) : list string :=
  match JSObject.get (allTags taxonomy) name with
  | Some tags => tags
  | None => []
  end.

(** [handleSlotSelect(key, value)], as the updater of [slotValues]. *)
Definition handleSlotSelect (key value : string)
  (prev : FilterSentence.SlotValues) : FilterSentence.SlotValues :=
  JSObject.set prev key value.

(** [handleSlotClear(key)], as the updater of [slotValues]. *)
Definition handleSlotClear (key : string) (prev : FilterSentence.SlotValues)
  : FilterSentence.SlotValues :=
  let newValues := prev in
  JSObject.delete newValues key.

(** [Object.keys(slotValues).length > 0]: the quick-search button is
    rendered. *)
Definition searchButtonShown (slotValues : FilterSentence.SlotValues) : bool :=
  (JS.length (JSObject.keys slotValues) >? 0)%Z.

End Slots.

(** [TaxonomyBrowser]: which categories and subcategories are expanded. *)
Module TaxonomyBrowser.

(** [expandedCategories] and [expandedSubCategories]. *)
Definition Expanded := JSObject.t bool.

(** [expanded[key]] as a condition. An own property holds a boolean. A
    key that is no own property is looked up in [Object.prototype]: it reads
    as not expanded ([undefined]), unless it is an inherited property name,
    whose value is truthy. *)
Definition isExpanded (expanded : Expanded) (key : string) : bool :=
  match JSObject.get expanded key with
  | Some b => b
  | None => JSObject.inherited key
  end.

(** [toggleCategory(categoryName)], as the updater:
    [{ ...prev, [categoryName]: !prev[categoryName] }]. *)
Definition toggleCategory (categoryName : string) (prev : Expanded)
  : Expanded :=
  JSObject.set prev categoryName (negb (isExpanded prev categoryName)).

(** The key [`${categoryName}-${subCategoryName}`]. *)
Definition subCategoryKey (categoryName subCategoryName : string) : string :=
  String.append categoryName (String.append "-" subCategoryName).

(** [toggleSubCategory(categoryName, subCategoryName)], as the updater. *)
Definition toggleSubCategory (categoryName subCategoryName : string)
  (prev : Expanded) : Expanded :=
  let key := subCategoryKey categoryName subCategoryName in
  JSObject.set prev key (negb (isExpanded prev key)).

End TaxonomyBrowser.

(** String methods used by the results page. *)
Module JSString.

(** [s.lastIndexOf(c)] for a one-character [c]: the last index of [c], or
    -1. *)
Fixpoint lastIndexOf (s : string) (c : ascii) : Z :=
  match s with
  | EmptyString => (-1)%Z
  | String a rest =>
      let later := lastIndexOf rest c in
      if (0 <=? later)%Z then (later + 1)%Z
      else if Ascii.eqb a c then 0%Z else (-1)%Z
  end.

Fixpoint drop (n : nat) (s : string) : string :=
  match n, s with
  | O, _ => s
  | S _, EmptyString => EmptyString
  | S n', String _ rest => drop n' rest
  end.

(** [s.substring(start)]: from [start] (negative counts as 0, past the end
    as the length) to the end. *)
Definition substring (s : string) (start : Z) : string :=
  drop (Z.to_nat start) s.

(** [arr.join(sep)]. *)
Definition join (sep : string) (arr : list string) : string :=
  String.concat sep arr.

(** [s.includes(c)] for a one-character [c]. *)
Fixpoint contains (s : string) (c : ascii) : bool :=
  match s with
  | EmptyString => false
  | String a rest => Ascii.eqb a c || contains rest c
  end.

End JSString.

(** The text filters of [ArchitectSelector] and [InlineSlot]. Case mapping
    is the engine's: [toLowerCase] is a parameter. *)
Module TextFilter.

(** [s.includes(sub)]. *)
Fixpoint includes (s sub : string) : bool :=
  String.prefix sub s
  || match s with
     | EmptyString => false
     | String _ rest => includes rest sub
     end.

(** [filteredArchitects] of [ArchitectSelector]. *)
Definition filteredArchitects (toLowerCase : string -> string)
  (architects : list string) (filterText : string) : list string :=
  if negb (JS.truthy_string filterText) then architects
  else filter (fun arch =>
                 includes (toLowerCase arch) (toLowerCase filterText))
              architects.

(** [filteredArchitects.length === 0 && filterText]: the "No architects
    match filter." line is rendered. *)
Definition noMatchShown (toLowerCase : string -> string)
  (architects : list string) (filterText : string) : bool :=
  (JS.length (filteredArchitects toLowerCase architects filterText) =? 0)%Z
  && JS.truthy_string filterText.

(** [filteredOptions] of [InlineSlot]. *)
Definition filteredOptions (toLowerCase : string -> string)
  (options : list string) (searchText : string) : list string :=
  if negb (JS.truthy_string searchText) then options
  else
    let searchLower := toLowerCase searchText in
    filter (fun opt => includes (toLowerCase opt) searchLower) options.

End TextFilter.

(** What the results page shows beside the image. *)
Module ResultsView.

(** The double quote character, as a string. *)
Definition dquote : string := String (Ascii.ascii_of_nat 34) EmptyString.

(** [`"${t}"`]. *)
Definition quoted (t : string) : string :=
  String.append dquote (String.append t dquote).

(** [displayCriteria()]. *)
Definition displayCriteria (searchCriteria : Criterion) : string :=
  let parts := [] in
  let parts :=
    match architect searchCriteria with
    | Some a =>
        if JS.truthy_string a
        then parts ++ [String.append "Architect: " (quoted a)]
        else parts
    | None => parts
    end in
  let parts :=
    if (JS.length (tags searchCriteria) >? 0)%Z
    then parts
         ++ [String.append "Tags: ["
               (String.append
                  (JSString.join ", " (map quoted (tags searchCriteria)))
                  "]")]
    else parts in
  let joined := JSString.join " AND " parts in
  if JS.truthy_string joined then joined else "All Images".

(** The text of the source link:
    [imageUrl ? imageUrl.substring(imageUrl.lastIndexOf('/') + 1)
              : 'Source Link']. *)
Definition linkText (img : ImageRecord) : string :=
  if JS.truthy_string (imageUrl img)
  then JSString.substring (imageUrl img)
         (JSString.lastIndexOf (imageUrl img) "/"%char + 1)
  else "Source Link".

(** [imageLoading] and [imageError] of [ResultsPage]. *)
Record ImageStatus := {
  imageLoading : bool;
  imageError : bool
}.

(** The [useState] initial values. *)
Definition initialStatus : ImageStatus :=
  {| imageLoading := true; imageError := false |}.

(** The [[currentIndex, currentImage]] effect. *)
Definition currentImage_effect (currentImage : option ImageRecord)
  (s : ImageStatus) : ImageStatus :=
  match currentImage with
  | Some _ => {| imageLoading := true; imageError := false |}
  | None => s
  end.

Definition handleImageLoad (s : ImageStatus) : ImageStatus :=
  {| imageLoading := false; imageError := imageError s |}.

Definition handleImageError (s : ImageStatus) : ImageStatus :=
  {| imageLoading := false; imageError := true |}.

(** What is visible in the image frame. *)
Definition loadingShown (s : ImageStatus) : bool := imageLoading s.

Definition errorShown (s : ImageStatus) : bool :=
  imageError s && negb (imageLoading s).

(** The image has class [opacity-100] (and not [opacity-0]). *)
Definition imageVisible (s : ImageStatus) : bool :=
  negb (imageLoading s || imageError s).

End ResultsView.

(** [App]: loading the dataset. *)
Module Loader.

(** What [response.json()] and the check of its fields come to: an
    exception (the body is not JSON, or not an object) with its message, or
    an object whose [taxonomy] and [images] are each a truthy value or
    not. *)
Inductive Body :=
| Thrown (message : string)
| Data (taxonomy : option Taxonomy.t) (images : option (list ImageRecord)).

(** What [fetch(DATA_URL)] comes to: a rejection with its message, or a
    response with [response.ok], [response.status] as text, and its body. *)
Inductive Fetched :=
| Rejected (message : string)
| Response (ok : bool) (status : string) (body : Body).

Record State := {
  appData_taxonomy : Taxonomy.t;
  appData_images : list ImageRecord;
  loading : bool;
  error : option string
}.

(** The [useState] initial values. *)
Definition initial : State :=
  {| appData_taxonomy := [];
     appData_images := [];
     loading := true;
     error := None |}.

(** The [.catch] handler. *)
Definition failed (message : string) (s : State) : State :=
  {| appData_taxonomy := appData_taxonomy s;
     appData_images := appData_images s;
     loading := false;
     error := Some (String.append "Failed to load data. " message) |}.

(** The mount effect, once the promise chain has settled. *)
Definition load (f : Fetched) (s : State) : State :=
  match f with
  | Rejected message => failed message s
  | Response ok status body =>
      if negb ok
      then failed (String.append "HTTP error! status: " status) s
      else
        match body with
        | Thrown message => failed message s
        | Data (Some taxonomy) (Some images) =>
            {| appData_taxonomy := taxonomy;
               appData_images := images;
               loading := false;
               error := error s |}
        | Data _ _ => failed "JSON data missing 'taxonomy' or 'images'." s
        end
  end.

(** What [renderView] returns. *)
Inductive Screen :=
| LoadingScreen
| ErrorScreen (message : string)
| Pages.

Definition renderView (s : State) : Screen :=
  if loading s then LoadingScreen
  else
    match error s with
    | Some message => if JS.truthy_string message then ErrorScreen message
                      else Pages
    | None => Pages
    end.

End Loader.

(** ** Invariants of the running application *)

(** A criterion with at least one tag or an architect. *)
Definition nonEmpty (c : Criterion) : Prop :=
  tags c <> [] \/ JS.truthy (architect c) = true.

(** What holds of the mounted page in every state the application reaches:
    on the search page the active criterion is the empty one; on the
    results page it is not empty, it matches at least one image and the
    cursor points at one of them. *)
Definition page_invariant (st : App.State) : Prop :=
  match App.page st with
  | App.SearchPageM s =>
      App.view st = search
      /\ App.currentSearchCriteria st = emptyCriterion
      /\ JSSet.wf (SearchPage.selectedTags s)
  | App.ResultsPageM r =>
      App.view st = results
      /\ ResultsPage.effectCriteria r = App.criteriaId st
      /\ nonEmpty (App.currentSearchCriteria st)
      /\ JSSet.wf (ResultsPage.sidebarSelectedTags r)
      /\ (0 <= ResultsPage.currentIndex r
          < ResultsPage.totalImages (App.images st)
                                    (App.currentSearchCriteria st))%Z
  end.

(** The events that can install a criteria object. *)
Definition installs (e : App.Event) : bool :=
  match e with
  | App.QuickSearch _ | App.SearchImages | App.ConfirmNewSearch
  | App.UpdateSearch | App.Home => true
  | _ => false
  end.

(** The image under the cursor, when the results page is mounted. *)
Definition shownImage (st : App.State) : option ImageRecord :=
  match App.page st with
  | App.SearchPageM _ => None
  | App.ResultsPageM r =>
      ResultsPage.currentImage (App.images st) (App.currentSearchCriteria st) r
  end.

(** ** The pivot in the words of the specification, and the image frame *)



(** Whether the pivot confirmation is open. *)
Definition confirmationOpen (st : App.State) : bool :=
  match App.page st with
  | App.SearchPageM _ => false
  | App.ResultsPageM r => ResultsPage.showConfirmModal r
  end.

(** Whether the cursor is another index after an event. *)
Definition cursor_moved (before after : App.State) : bool :=
  match cursor before, cursor after with
  | Some i, Some j => negb (i =? j)%Z
  | _, _ => false
  end.

(** The image frame after [handleNext] or [handlePrevious]: the
    [[currentIndex, currentImage]] effect. These handlers keep the criteria
    object and so the result list, whose images are distinct objects, so a
    dependency has changed exactly when the cursor is another index. *)
Definition navigation_frame (before after : App.State)
  (s : ResultsView.ImageStatus) : ResultsView.ImageStatus :=
  if cursor_moved before after
  then ResultsView.currentImage_effect (shownImage after) s
  else s.

(** Case analysis on the next conditional of the goal. *)
Ltac break_branch :=
  match goal with
  | |- context [if ?b then _ else _] => destruct b eqn:?
  | |- context [match ?x with Some _ => _ | None => _ end] => destruct x eqn:?
  end.

(** * Properties *)

(** ** Strings and arrays *)

Lemma includes_In (arr : list string) (x : string) :
  JS.includes arr x = true <-> In x arr.
Proof.
  unfold JS.includes. rewrite existsb_exists. split.
  - intros [y [Hy Heq]]. apply String.eqb_eq in Heq. now subst.
  - intros H. exists x. split; [assumption | apply String.eqb_refl].
Qed.

Lemma tags_include_present (img : ImageRecord) (tag : string) :
  tags_include img tag = true <-> tag_present img tag.
Proof.
  unfold tags_include, tag_present. destruct (img_tags img) as [ts|].
  - rewrite includes_In. split.
    + intros H. now exists ts.
    + intros [ts' [Heq H]]. now injection Heq as ->.
  - split; [discriminate | intros [ts' [Heq _]]; discriminate].
Qed.

Lemma strict_equals_eq (a b : option string) :
  JS.strict_equals a b = true <-> a = b.
Proof.
  destruct a as [x|], b as [y|]; simpl; try (split; congruence).
  rewrite String.eqb_eq. split; congruence.
Qed.

Lemma truthy_false (v : option string) :
  JS.truthy v = false <-> v = None \/ v = Some "".
Proof.
  destruct v as [[|c s]|]; simpl; split; intros H; auto;
    try discriminate; destruct H; discriminate.
Qed.

(** The three copies of the filter callback are one function. *)
Lemma filteredImages_filter_eq (c : Criterion) (img : ImageRecord) :
  ResultsPage.filteredImages_filter c img
  = SearchPage.handleSearch_filter c img.
Proof. reflexivity. Qed.

Lemma handleUpdateSearch_filter_eq (c : Criterion) (img : ImageRecord) :
  ResultsPage.handleUpdateSearch_filter c img
  = SearchPage.handleSearch_filter c img.
Proof. reflexivity. Qed.

Lemma handleSearch_filter_true (c : Criterion) (img : ImageRecord) :
  SearchPage.handleSearch_filter c img = true
  <-> (architect c = None \/ architect c = Some ""
       \/ img_architect img = architect c)
      /\ forall tag, In tag (tags c) -> tag_present img tag.
Proof.
  unfold SearchPage.handleSearch_filter, JS.every.
  destruct (JS.truthy (architect c)) eqn:Ht; simpl.
  - destruct (JS.strict_equals (img_architect img) (architect c)) eqn:Hs; simpl.
    + apply strict_equals_eq in Hs.
      destruct (forallb _ (tags c)) eqn:Hf; simpl.
      * rewrite forallb_forall in Hf. split; [intros _ | reflexivity].
        split; [auto |]. intros tag Hin.
        apply tags_include_present. now apply Hf.
      * split; [discriminate |]. intros [_ Hall].
        rewrite <- Hf. apply forallb_forall. intros tag Hin.
        apply tags_include_present. now apply Hall.
    + split; [discriminate |]. intros [[Hn | [He | Heq]] _].
      * rewrite Hn in Ht. discriminate.
      * rewrite He in Ht. discriminate.
      * apply strict_equals_eq in Heq. congruence.
  - apply truthy_false in Ht.
    destruct (forallb _ (tags c)) eqn:Hf; simpl.
    + rewrite forallb_forall in Hf. split; [intros _ | reflexivity].
      split; [tauto |]. intros tag Hin.
      apply tags_include_present. now apply Hf.
    + split; [discriminate |]. intros [_ Hall].
      rewrite <- Hf. apply forallb_forall. intros tag Hin.
      apply tags_include_present. now apply Hall.
Qed.

(** ** C1: the filter predicate *)

(** An architect that is the empty string would be read as none
    ([!criteria.architect] holds of it): such a criterion would match image
    A. No criterion the application builds has one, see
    [built_criteria_named]. *)
Remark empty_architect_matches_all :
  let c := {| tags := []; architect := Some "" |} in
  SearchPage.handleSearch_filter c Scenario.A = true
  /\ ResultsPage.filteredImages_filter c Scenario.A = true
  /\ ~ matches_spec Scenario.A c.
Proof.
  simpl. repeat split; try reflexivity.
  intros [[H | H] _]; discriminate.
Qed.

(** Each of the three filter callbacks (search-page submit, results-page
    list, sidebar update), on any criterion: it is true exactly when the
    criterion's architect is null or the empty string or equal to the
    image's architect, and every tag of the criterion is present in the
    image's tags. *)
Lemma filter_predicate_cases :
  forall (img : ImageRecord) (c : Criterion),
    let matches :=
      (architect c = None \/ architect c = Some ""
       \/ img_architect img = architect c)
      /\ (forall tag, In tag (tags c) -> tag_present img tag) in
    (SearchPage.handleSearch_filter c img = true <-> matches)
    /\ (ResultsPage.filteredImages_filter c img = true <-> matches)
    /\ (ResultsPage.handleUpdateSearch_filter c img = true <-> matches)
    /\ SearchPage.handleSearch_filter emptyCriterion img = true
    /\ ResultsPage.filteredImages_filter emptyCriterion img = true.
Proof.
  intros img c matches. subst matches.
  pose proof (handleSearch_filter_true c img) as H.
  split; [exact H |].
  split; [rewrite filteredImages_filter_eq; exact H |].
  split; [rewrite handleUpdateSearch_filter_eq; exact H |].
  split; reflexivity.
Qed.

(** Away from the empty-string architect, the callback is the match
    relation of the specification. *)
Corollary handleSearch_filter_matches_spec (c : Criterion) (img : ImageRecord) :
  architect c <> Some "" ->
  (SearchPage.handleSearch_filter c img = true <-> matches_spec img c).
Proof.
  intros Hne. rewrite handleSearch_filter_true. unfold matches_spec.
  split; intros [Ha Ht]; (split; [| exact Ht]); tauto.
Qed.

(** C1: for every image record and every criterion (its architect null or
    a name: the empty string is the architect of no criterion the
    application builds), the filter predicate used at commit time on the
    search page, at commit time in the sidebar and in the results page is
    true if and only if the criterion's architect is null or equal to the
    image's architect, and every tag of the criterion is present in the
    image's tags; the empty criterion matches every image. *)
Theorem C1_filter_matches :
  forall (img : ImageRecord) (c : Criterion),
    architect c <> Some "" ->
    let matches :=
      (architect c = None \/ img_architect img = architect c)
      /\ (forall tag, In tag (tags c) -> tag_present img tag) in
    (SearchPage.handleSearch_filter c img = true <-> matches)
    /\ (ResultsPage.filteredImages_filter c img = true <-> matches)
    /\ (ResultsPage.handleUpdateSearch_filter c img = true <-> matches)
    /\ SearchPage.handleSearch_filter emptyCriterion img = true
    /\ ResultsPage.filteredImages_filter emptyCriterion img = true
    /\ ResultsPage.handleUpdateSearch_filter emptyCriterion img = true.
Proof.
  intros img c Hne matches. subst matches.
  pose proof (handleSearch_filter_matches_spec c img Hne) as H.
  unfold matches_spec in H.
  split; [exact H |].
  split; [rewrite filteredImages_filter_eq; exact H |].
  split; [rewrite handleUpdateSearch_filter_eq; exact H |].
  repeat split.
Qed.

Lemma C1_filter_matches_witness :
  let c := {| tags := ["Arch"; "Window"]; architect := Some "Foo" |} in
  SearchPage.handleSearch_filter c Scenario.A = true
  /\ (img_architect Scenario.A = architect c
      /\ forall tag, In tag (tags c) -> tag_present Scenario.A tag)
  /\ ResultsPage.filteredImages_filter c Scenario.B = false.
Proof.
  intros c.
  assert (Hne : architect c <> Some "") by discriminate.
  destruct (C1_filter_matches Scenario.A c Hne) as [H _].
  split; [reflexivity |]. split; [| reflexivity].
  destruct (proj1 H eq_refl) as [[Ha | Ha] Ht]; [discriminate Ha |].
  split; [exact Ha | exact Ht].
Defined.

(** The scenario of the specification: "Arch" by "Foo" and "Window" match
    only A, "Arch" matches A and B, "Nonexistent" matches nothing. *)
Example scenario_filter :
  ResultsPage.filteredImages Scenario.dataset
    {| tags := ["Arch"]; architect := Some "Foo" |} = [Scenario.A]
  /\ ResultsPage.filteredImages Scenario.dataset
       {| tags := ["Window"]; architect := None |} = [Scenario.A]
  /\ ResultsPage.filteredImages Scenario.dataset
       {| tags := ["Arch"]; architect := None |} = [Scenario.A; Scenario.B]
  /\ ResultsPage.filteredImages Scenario.dataset
       {| tags := ["Nonexistent"]; architect := None |} = [].
Proof. repeat split. Qed.

(** ** Sets in insertion order *)

Lemma has_In (s : JSSet.t) (x : string) : JSSet.has s x = true <-> In x s.
Proof. apply includes_In. Qed.

Lemma has_false (s : JSSet.t) (x : string) :
  JSSet.has s x = false <-> ~ In x s.
Proof.
  rewrite <- has_In. destruct (JSSet.has s x); split; congruence.
Qed.

Lemma add_fold_fresh (arr : list string) :
  forall acc : JSSet.t,
    NoDup (acc ++ arr) -> fold_left JSSet.add arr acc = acc ++ arr.
Proof.
  induction arr as [|x arr IH]; intros acc Hnd; simpl.
  - now rewrite app_nil_r.
  - assert (Hx : JSSet.has acc x = false).
    { apply has_false. intros Hin.
      apply NoDup_remove_2 in Hnd. apply Hnd.
      apply in_or_app. now left. }
    unfold JSSet.add at 2. rewrite Hx.
    rewrite IH; rewrite <- app_assoc; simpl; auto.
Qed.

Lemma copy_wf (s : JSSet.t) : JSSet.wf s -> JSSet.copy s = s.
Proof.
  intros H. unfold JSSet.copy, JSSet.of_array, JSSet.to_array, JSSet.empty.
  now rewrite add_fold_fresh.
Qed.

Lemma add_fold_In (arr : list string) :
  forall (acc : JSSet.t) (x : string),
    In x (fold_left JSSet.add arr acc) <-> In x acc \/ In x arr.
Proof.
  induction arr as [|y arr IH]; intros acc x; simpl.
  - tauto.
  - rewrite IH. unfold JSSet.add.
    destruct (JSSet.has acc y) eqn:Hy.
    + apply has_In in Hy. split; [tauto |].
      intros [H | [H | H]]; subst; auto.
    + rewrite in_app_iff. simpl. tauto.
Qed.

Lemma add_fold_NoDup (arr : list string) :
  forall acc : JSSet.t, NoDup acc -> NoDup (fold_left JSSet.add arr acc).
Proof.
  induction arr as [|y arr IH]; intros acc Hnd; simpl; auto.
  apply IH. unfold JSSet.add.
  destruct (JSSet.has acc y) eqn:Hy; auto.
  apply has_false in Hy.
  apply NoDup_app; auto.
  - constructor; [intros [] | constructor].
  - intros a Ha [Hb | []]. now subst.
Qed.

Lemma of_array_In (arr : list string) (x : string) :
  In x (JSSet.of_array arr) <-> In x arr.
Proof.
  unfold JSSet.of_array. rewrite add_fold_In. simpl. tauto.
Qed.

Lemma of_array_wf (arr : list string) : JSSet.wf (JSSet.of_array arr).
Proof. apply add_fold_NoDup. constructor. Qed.

Lemma delete_In (s : JSSet.t) (x y : string) :
  In y (JSSet.delete s x) <-> In y s /\ y <> x.
Proof.
  unfold JSSet.delete. rewrite filter_In.
  destruct (String.eqb_spec x y) as [-> | Hne]; simpl; split;
    intros [H1 H2]; split; auto; congruence.
Qed.

Lemma delete_wf (s : JSSet.t) (x : string) :
  JSSet.wf s -> JSSet.wf (JSSet.delete s x).
Proof. intros H. now apply NoDup_filter. Qed.

Lemma delete_absent (s : JSSet.t) (x : string) :
  ~ In x s -> JSSet.delete s x = s.
Proof.
  induction s as [|y s IH]; intros Hnot; simpl; auto.
  destruct (String.eqb_spec x y) as [-> | Hne]; simpl.
  - exfalso. apply Hnot. now left.
  - f_equal. apply IH. intros H. apply Hnot. now right.
Qed.

Lemma delete_Permutation (s : JSSet.t) (x : string) :
  JSSet.wf s -> In x s -> Permutation (JSSet.delete s x ++ [x]) s.
Proof.
  unfold JSSet.wf. induction s as [|y s IH]; intros Hnd Hin; [destruct Hin |].
  inversion Hnd as [|? ? Hy Hs]; subst. simpl.
  destruct (String.eqb_spec x y) as [-> | Hne]; simpl.
  - fold (JSSet.delete s y). rewrite delete_absent by assumption.
    symmetry. apply Permutation_cons_append.
  - constructor. apply IH; auto.
    destruct Hin as [H | H]; [congruence | assumption].
Qed.

(** One toggle: present tags become absent and absent ones present, and no
    other membership changes. *)
Lemma toggleTag_has (s : JSSet.t) (tag x : string) :
  JSSet.wf s ->
  JSSet.has (toggleTag tag s) x
  = if String.eqb x tag then negb (JSSet.has s tag) else JSSet.has s x.
Proof.
  intros Hwf. unfold toggleTag. rewrite (copy_wf s Hwf).
  destruct (JSSet.has s tag) eqn:Ht.
  - destruct (String.eqb_spec x tag) as [-> | Hne]; simpl.
    + apply has_false. rewrite delete_In. tauto.
    + destruct (JSSet.has s x) eqn:Hx.
      * apply has_In. rewrite delete_In. apply has_In in Hx. tauto.
      * apply has_false. rewrite delete_In. apply has_false in Hx. tauto.
  - unfold JSSet.add. rewrite Ht.
    destruct (String.eqb_spec x tag) as [-> | Hne]; simpl.
    + apply has_In. apply in_or_app. right. now left.
    + destruct (JSSet.has s x) eqn:Hx.
      * apply has_In. apply in_or_app. left. now apply has_In.
      * apply has_false. rewrite in_app_iff. apply has_false in Hx.
        simpl. intros [H | [H | []]]; [tauto | congruence].
Qed.

Lemma toggleTag_wf (s : JSSet.t) (tag : string) :
  JSSet.wf s -> JSSet.wf (toggleTag tag s).
Proof.
  intros Hwf. unfold toggleTag. rewrite (copy_wf s Hwf).
  destruct (JSSet.has s tag) eqn:Ht.
  - now apply delete_wf.
  - unfold JSSet.add. rewrite Ht. apply has_false in Ht.
    unfold JSSet.wf. apply NoDup_app; auto.
    + constructor; [intros [] | constructor].
    + intros a Ha [Hb | []]. now subst.
Qed.

Lemma toggleTag_twice (s : JSSet.t) (tag : string) :
  JSSet.wf s -> Permutation (toggleTag tag (toggleTag tag s)) s.
Proof.
  intros Hwf. pose proof (toggleTag_wf s tag Hwf) as Hwf1.
  unfold toggleTag at 1. rewrite (copy_wf _ Hwf1).
  rewrite (toggleTag_has s tag tag Hwf), String.eqb_refl.
  unfold toggleTag. rewrite (copy_wf s Hwf).
  destruct (JSSet.has s tag) eqn:Ht; simpl.
  - unfold JSSet.add.
    assert (Hd : JSSet.has (JSSet.delete s tag) tag = false).
    { apply has_false. rewrite delete_In. tauto. }
    rewrite Hd. apply delete_Permutation; auto. now apply has_In.
  - unfold JSSet.add. rewrite Ht. apply has_false in Ht.
    unfold JSSet.delete. rewrite filter_app. simpl.
    rewrite String.eqb_refl. simpl. rewrite app_nil_r.
    fold (JSSet.delete s tag). now rewrite delete_absent.
Qed.

(** ** C7: toggling a tag twice *)

(** C7: on the search page and in the results sidebar, one [toggleTag]
    adds the tag when it is absent and removes it when it is present, and a
    second one undoes the first: the selected-tag set has its original
    members again (the same elements, none twice). *)
Theorem C7_toggleTag_twice :
  forall (tag : string) (s : SearchPage.State) (r : ResultsPage.State),
    JSSet.wf (SearchPage.selectedTags s) ->
    JSSet.wf (ResultsPage.sidebarSelectedTags r) ->
    let s1 := SearchPage.handleTagSelect tag s in
    let s2 := SearchPage.handleTagSelect tag s1 in
    let r1 := ResultsPage.handleSidebarTagSelect tag r in
    let r2 := ResultsPage.handleSidebarTagSelect tag r1 in
    (JSSet.has (SearchPage.selectedTags s1) tag
     = negb (JSSet.has (SearchPage.selectedTags s) tag)
     /\ JSSet.same_members (SearchPage.selectedTags s2)
                           (SearchPage.selectedTags s)
     /\ Permutation (SearchPage.selectedTags s2) (SearchPage.selectedTags s))
    /\ (JSSet.has (ResultsPage.sidebarSelectedTags r1) tag
        = negb (JSSet.has (ResultsPage.sidebarSelectedTags r) tag)
        /\ JSSet.same_members (ResultsPage.sidebarSelectedTags r2)
                              (ResultsPage.sidebarSelectedTags r)
        /\ Permutation (ResultsPage.sidebarSelectedTags r2)
                       (ResultsPage.sidebarSelectedTags r)).
Proof.
  intros tag s r Hs Hr s1 s2 r1 r2.
  assert (Htwice : forall t : JSSet.t, JSSet.wf t ->
            JSSet.has (toggleTag tag t) tag = negb (JSSet.has t tag)
            /\ JSSet.same_members (toggleTag tag (toggleTag tag t)) t
            /\ Permutation (toggleTag tag (toggleTag tag t)) t).
  { intros t Ht. split; [| split].
    - now rewrite toggleTag_has, String.eqb_refl.
    - intros x. rewrite toggleTag_has by now apply toggleTag_wf.
      rewrite (toggleTag_has t tag tag Ht), String.eqb_refl, negb_involutive.
      destruct (String.eqb_spec x tag) as [-> | Hne]; auto.
      rewrite toggleTag_has by assumption.
      apply String.eqb_neq in Hne. now rewrite Hne.
    - now apply toggleTag_twice. }
  split.
  - exact (Htwice (SearchPage.selectedTags s) Hs).
  - exact (Htwice (ResultsPage.sidebarSelectedTags r) Hr).
Qed.

Lemma C7_toggleTag_twice_witness :
  let s := {| SearchPage.selectedTags := ["Arch"; "Window"];
              SearchPage.selectedArchitect := None;
              SearchPage.architectList := ["Bar"; "Foo"];
              SearchPage.searchError := None |} in
  let r := ResultsPage.initial {| tags := ["Window"]; architect := None |} 1 in
  JSSet.wf (SearchPage.selectedTags s)
  /\ JSSet.wf (ResultsPage.sidebarSelectedTags r)
  /\ SearchPage.selectedTags (SearchPage.handleTagSelect "Arch" s) = ["Window"]
  /\ Permutation
       (SearchPage.selectedTags
          (SearchPage.handleTagSelect "Arch"
             (SearchPage.handleTagSelect "Arch" s)))
       ["Arch"; "Window"]
  /\ Permutation
       (ResultsPage.sidebarSelectedTags
          (ResultsPage.handleSidebarTagSelect "Arch"
             (ResultsPage.handleSidebarTagSelect "Arch" r)))
       ["Window"].
Proof.
  intros s r.
  assert (Hs : JSSet.wf (SearchPage.selectedTags s)).
  { repeat constructor; simpl; intuition discriminate. }
  assert (Hr : JSSet.wf (ResultsPage.sidebarSelectedTags r)).
  { repeat constructor; simpl; intuition discriminate. }
  split; [exact Hs |]. split; [exact Hr |]. split; [reflexivity |].
  pose proof (C7_toggleTag_twice "Arch" s r Hs Hr) as H. simpl in H.
  destruct H as [[_ [_ H1]] [_ [_ H2]]].
  split; [exact H1 | exact H2].
Defined.

(** The members come back, not their insertion order: a tag that was
    selected is selected again as the most recent one. *)
Remark toggleTag_twice_order :
  toggleTag "Arch" (toggleTag "Arch" ["Arch"; "Window"]) = ["Window"; "Arch"].
Proof. reflexivity. Qed.

(** ** C8: selecting an architect *)

(** C8: on the search page and in the results sidebar, choosing the
    architect that is already selected clears the selection to null, and
    choosing another one makes it the selection; the selection holds at most
    one architect. *)
Theorem C8_architect_toggle :
  forall (a : string) (s : SearchPage.State) (r : ResultsPage.State),
    let s' :=
      SearchPage.handleArchitectSelect
        (ArchitectSelector.handleChange (SearchPage.selectedArchitect s)
                                        (Some a)) s in
    let r' :=
      ResultsPage.handleSidebarArchitectSelect
        (ArchitectSelector.handleChange
           (ResultsPage.sidebarSelectedArchitect r) (Some a)) r in
    (SearchPage.selectedArchitect s = Some a ->
     SearchPage.selectedArchitect s' = None)
    /\ (SearchPage.selectedArchitect s <> Some a ->
        SearchPage.selectedArchitect s' = Some a)
    /\ (ResultsPage.sidebarSelectedArchitect r = Some a ->
        ResultsPage.sidebarSelectedArchitect r' = None)
    /\ (ResultsPage.sidebarSelectedArchitect r <> Some a ->
        ResultsPage.sidebarSelectedArchitect r' = Some a).
Proof.
  intros a s r s' r'. subst s' r'. simpl.
  unfold ArchitectSelector.handleChange.
  repeat split.
  - intros ->. simpl. now rewrite String.eqb_refl.
  - intros Hne.
    destruct (JS.strict_equals (SearchPage.selectedArchitect s) (Some a)) eqn:E;
      [apply strict_equals_eq in E; contradiction | reflexivity].
  - intros ->. simpl. rewrite String.eqb_refl. simpl. reflexivity.
  - intros Hne.
    destruct (JS.strict_equals (ResultsPage.sidebarSelectedArchitect r)
                               (Some a)) eqn:E;
      [apply strict_equals_eq in E; contradiction |].
    now rewrite E.
Qed.

Lemma C8_architect_toggle_witness :
  let s := SearchPage.handleArchitectSelect (Some "Foo")
             (SearchPage.mount Scenario.dataset) in
  let r := ResultsPage.initial {| tags := []; architect := Some "Bar" |} 1 in
  SearchPage.selectedArchitect
    (SearchPage.handleArchitectSelect
       (ArchitectSelector.handleChange (SearchPage.selectedArchitect s)
                                       (Some "Foo")) s) = None
  /\ ResultsPage.sidebarSelectedArchitect
       (ResultsPage.handleSidebarArchitectSelect
          (ArchitectSelector.handleChange
             (ResultsPage.sidebarSelectedArchitect r) (Some "Foo")) r)
     = Some "Foo".
Proof.
  intros s r.
  destruct (C8_architect_toggle "Foo" s r) as [H1 [_ [_ H4]]].
  split.
  - apply H1. reflexivity.
  - apply H4. discriminate.
Defined.

(** ** C5: the cursor wraps around *)

Lemma handleNext_index (N : Z) (s : ResultsPage.State) :
  (0 < N)%Z -> (0 <= ResultsPage.currentIndex s)%Z ->
  ResultsPage.currentIndex (ResultsPage.handleNext N s)
  = ((ResultsPage.currentIndex s + 1) mod N)%Z.
Proof.
  intros HN Hi. simpl. apply Z.rem_mod_nonneg; lia.
Qed.

Lemma handlePrevious_index (N : Z) (s : ResultsPage.State) :
  (0 < N)%Z -> (0 <= ResultsPage.currentIndex s)%Z ->
  ResultsPage.currentIndex (ResultsPage.handlePrevious N s)
  = ((ResultsPage.currentIndex s - 1 + N) mod N)%Z.
Proof.
  intros HN Hi. simpl. apply Z.rem_mod_nonneg; lia.
Qed.

Lemma handleNext_iter (N : Z) (s : ResultsPage.State) (k : nat) :
  (0 <= ResultsPage.currentIndex s < N)%Z ->
  ResultsPage.currentIndex (Nat.iter k (ResultsPage.handleNext N) s)
  = ((ResultsPage.currentIndex s + Z.of_nat k) mod N)%Z.
Proof.
  intros Hi. induction k as [|k IH].
  - simpl. rewrite Z.add_0_r. symmetry. now apply Z.mod_small.
  - rewrite Nat.iter_succ, handleNext_index.
    + rewrite IH, Zplus_mod_idemp_l. f_equal. lia.
    + lia.
    + rewrite IH. apply Z.mod_pos_bound. lia.
Qed.

(** C5: over a filtered list of [N > 0] images and from any cursor
    [0 <= i < N], [N] calls of [handleNext] bring the cursor back to [i];
    [handleNext] computes [(i + 1) mod N] (from the last image to the first)
    and [handlePrevious] computes [(i - 1 + N) mod N] (from the first image
    to the last, so from 0 to [N - 1]); with [N = 1] both leave it at 0. *)
Theorem C5_navigator_wraparound :
  forall (images : list ImageRecord) (c : Criterion) (s : ResultsPage.State),
    let N := ResultsPage.totalImages images c in
    let i := ResultsPage.currentIndex s in
    (0 < N)%Z -> (0 <= i < N)%Z ->
    ResultsPage.currentIndex
      (Nat.iter (Z.to_nat N) (ResultsPage.handleNext N) s) = i
    /\ ResultsPage.currentIndex (ResultsPage.handleNext N s)
       = ((i + 1) mod N)%Z
    /\ ResultsPage.currentIndex (ResultsPage.handlePrevious N s)
       = ((i - 1 + N) mod N)%Z
    /\ (i = (N - 1)%Z ->
        ResultsPage.currentIndex (ResultsPage.handleNext N s) = 0%Z)
    /\ (i = 0%Z ->
        ResultsPage.currentIndex (ResultsPage.handlePrevious N s)
        = (N - 1)%Z)
    /\ (N = 1%Z ->
        ResultsPage.currentIndex (ResultsPage.handleNext N s) = 0%Z
        /\ ResultsPage.currentIndex (ResultsPage.handlePrevious N s) = 0%Z).
Proof.
  intros images c s N i HN Hi. subst i.
  generalize dependent N. intros N HN Hi.
  assert (Hnext := handleNext_index N s HN (proj1 Hi)).
  assert (Hprev := handlePrevious_index N s HN (proj1 Hi)).
  split; [| split; [exact Hnext | split; [exact Hprev |]]].
  - rewrite handleNext_iter, Z2Nat.id by lia.
    rewrite <- (Z.mul_1_l N) at 1. rewrite Z.mod_add by lia.
    now apply Z.mod_small.
  - split; [| split].
    + intros Hlast. rewrite Hnext, Hlast.
      replace (N - 1 + 1)%Z with N by lia. apply Z.mod_same. lia.
    + intros Hfirst. rewrite Hprev, Hfirst.
      replace (0 - 1 + N)%Z with (N - 1)%Z by lia. apply Z.mod_small. lia.
    + intros H1. rewrite Hnext, Hprev, H1.
      assert (ResultsPage.currentIndex s = 0%Z) as -> by lia.
      split; reflexivity.
Qed.

Lemma C5_navigator_wraparound_witness :
  let c := {| tags := ["Arch"]; architect := None |} in
  let s := ResultsPage.mount Scenario.dataset c 1 in
  ResultsPage.totalImages Scenario.dataset c = 2%Z
  /\ ResultsPage.currentIndex
       (ResultsPage.handleNext 2 (ResultsPage.handleNext 2 s)) = 0%Z
  /\ ResultsPage.currentIndex (ResultsPage.handlePrevious 2 s) = 1%Z.
Proof.
  intros c s. split; [reflexivity |].
  assert (HN : (0 < ResultsPage.totalImages Scenario.dataset c)%Z)
    by reflexivity.
  assert (Hi : (0 <= ResultsPage.currentIndex s
                < ResultsPage.totalImages Scenario.dataset c)%Z)
    by (split; [discriminate | reflexivity]).
  destruct (C5_navigator_wraparound Scenario.dataset c s HN Hi)
    as [H1 [_ [_ [_ [H5 _]]]]].
  split; [exact H1 | apply H5; reflexivity].
Defined.

(** ** The coordinator: what a handler and a render can change *)

Lemma render_images (st : App.State) :
  App.images (App.render st) = App.images st.
Proof.
  unfold App.render. destruct (App.view st), (App.page st); reflexivity.
Qed.

Lemma render_criteria (st : App.State) :
  App.view (App.render st) = App.view st
  /\ App.currentSearchCriteria (App.render st) = App.currentSearchCriteria st
  /\ App.criteriaId (App.render st) = App.criteriaId st
  /\ App.nextId (App.render st) = App.nextId st.
Proof.
  unfold App.render.
  destruct (App.view st) eqn:Hv, (App.page st); simpl; rewrite ?Hv; auto.
Qed.

Lemma render_settled (st : App.State) :
  App.criteriaId st < App.nextId st -> settled (App.render st).
Proof.
  intros Hid. unfold settled, App.render.
  destruct (App.view st) eqn:Hv, (App.page st) as [s | r] eqn:Hp; simpl;
    rewrite ?Hp; auto.
  split; [assumption |]. split; [assumption |].
  unfold ResultsPage.update.
  destruct (Nat.eqb_spec (ResultsPage.effectCriteria r) (App.criteriaId st));
    [assumption | reflexivity].
Qed.

Lemma render_of_settled (st : App.State) : settled st -> App.render st = st.
Proof.
  intros [_ H]. unfold App.render.
  destruct (App.page st) as [s | r] eqn:Hp.
  - now rewrite H.
  - destruct H as [Hv He]. rewrite Hv.
    unfold ResultsPage.update. rewrite He, Nat.eqb_refl.
    destruct st; simpl in *. now subst.
Qed.

Lemma onSearch_cases (call : option Criterion) (st : App.State) :
  App.images (App.onSearch call st) = App.images st
  /\ App.page (App.onSearch call st) = App.page st
  /\ (App.onSearch call st = st
      \/ (App.criteriaId (App.onSearch call st) = App.nextId st
          /\ App.nextId (App.onSearch call st) = S (App.nextId st))).
Proof.
  destruct call; simpl; auto.
Qed.

(** A handler either leaves the view and the criteria object alone, or
    installs a new criteria object; it never swaps the mounted page nor
    touches the dependency the effects last ran for. *)
Lemma dispatch_cases (e : App.Event) (st : App.State) :
  let st1 := App.dispatch e st in
  App.images st1 = App.images st
  /\ same_page_kind (App.page st) (App.page st1)
  /\ ((App.view st1 = App.view st
       /\ App.currentSearchCriteria st1 = App.currentSearchCriteria st
       /\ App.criteriaId st1 = App.criteriaId st
       /\ App.nextId st1 = App.nextId st)
      \/ (App.criteriaId st1 = App.nextId st
          /\ App.nextId st1 = S (App.nextId st))).
Proof.
  unfold App.dispatch, App.searchPage_handleSearch,
    App.resultsPage_handleUpdateSearch, App.resultsPage_confirmNewSearch,
    SearchPage.handleSearch, ResultsPage.handleUpdateSearch,
    ResultsPage.confirmNewSearch.
  destruct (App.page st) as [s | r] eqn:Hp; destruct e; simpl;
    repeat break_branch; simpl; rewrite ?Hp; simpl; auto 8;
    simpl in *; congruence.
Qed.

Lemma step_images (e : App.Event) (st : App.State) :
  App.images (App.step e st) = App.images st.
Proof.
  unfold App.step. rewrite render_images. apply (dispatch_cases e st).
Qed.

Lemma dispatch_ids (e : App.Event) (st : App.State) :
  App.criteriaId st < App.nextId st ->
  App.criteriaId (App.dispatch e st) < App.nextId (App.dispatch e st).
Proof.
  intros H.
  destruct (dispatch_cases e st) as [_ [_ [[_ [_ [H1 H2]]] | [H1 H2]]]];
    rewrite H1, H2; lia.
Qed.

Lemma step_settled (e : App.Event) (st : App.State) :
  settled st -> settled (App.step e st).
Proof.
  intros [H _]. apply render_settled. now apply dispatch_ids.
Qed.

Lemma loaded_settled (imgs : list ImageRecord) : settled (App.loaded imgs).
Proof. unfold settled. simpl. split; [lia | reflexivity]. Qed.

Lemma currentImage_In (imgs : list ImageRecord) (c : Criterion)
  (r : ResultsPage.State) (img : ImageRecord) :
  ResultsPage.currentImage imgs c r = Some img -> In img imgs.
Proof.
  unfold ResultsPage.currentImage, JS.index, ResultsPage.filteredImages.
  destruct (_ >? 0)%Z; [| discriminate].
  destruct (_ <? 0)%Z; [discriminate |].
  intros H. apply nth_error_In in H. apply filter_In in H. tauto.
Qed.

Lemma dispatch_pivot (e : App.Event) (st : App.State) :
  pivot_from_dataset st -> pivot_from_dataset (App.dispatch e st).
Proof.
  unfold pivot_from_dataset, App.dispatch, App.searchPage_handleSearch,
    App.resultsPage_handleUpdateSearch, App.resultsPage_confirmNewSearch,
    SearchPage.handleSearch, ResultsPage.handleUpdateSearch,
    ResultsPage.confirmNewSearch.
  destruct (App.page st) as [s | r] eqn:Hp; intros Hinv.
  - destruct e; simpl; repeat break_branch; simpl; rewrite ?Hp; auto.
  - destruct e; simpl; rewrite ?Hp; auto;
      try (repeat break_branch; simpl; rewrite ?Hp; simpl; auto;
           discriminate).
    (* OtherTagClick *)
    unfold App.tagButtonShown.
    destruct (ResultsPage.currentImage _ _ r) as [img |] eqn:Hcur;
      [| rewrite Hp; assumption].
    destruct (tags_include img tag) eqn:Htag; [| rewrite Hp; assumption].
    simpl. intros tag' Heq. injection Heq as <-.
    exists img. split; [| assumption].
    now apply currentImage_In in Hcur.
Qed.

Lemma render_pivot (st : App.State) :
  pivot_from_dataset st -> pivot_from_dataset (App.render st).
Proof.
  unfold pivot_from_dataset, App.render.
  destruct (App.view st), (App.page st) as [s | r] eqn:Hp; simpl;
    rewrite ?Hp; auto; try discriminate.
  unfold ResultsPage.update. destruct (Nat.eqb _ _); auto.
Qed.

(** What holds in every state the loaded application can reach. *)
Lemma reachable_invariant (imgs : list ImageRecord) (st : App.State) :
  App.reachable imgs st ->
  App.images st = imgs /\ settled st /\ pivot_from_dataset st.
Proof.
  induction 1 as [| e st _ [Himg [Hset Hpiv]]].
  - split; [reflexivity |]. split; [apply loaded_settled | exact I].
  - split; [now rewrite step_images |].
    split; [now apply step_settled |].
    unfold App.step. now apply render_pivot, dispatch_pivot.
Qed.

Lemma reachable_run (imgs : list ImageRecord) (events : list App.Event) :
  forall st, App.reachable imgs st -> App.reachable imgs (run events st).
Proof.
  induction events as [| e events IH]; intros st H; simpl; auto.
  apply IH. now constructor.
Qed.

(** ** C2: validate, then commit *)

(** The events that submit a criterion run the two handlers below. *)
Lemma step_SearchImages (st : App.State) (s : SearchPage.State) :
  App.page st = App.SearchPageM s ->
  SearchPage.hasSelection s = true ->
  App.step App.SearchImages st
  = App.render (App.searchPage_handleSearch (SearchPage.buttonCriteria s) s st).
Proof.
  intros Hp Hsel. unfold App.step, App.dispatch. now rewrite Hp, Hsel.
Qed.

Lemma step_QuickSearch (st : App.State) (s : SearchPage.State)
  (slotValues : FilterSentence.SlotValues) (c : Criterion) :
  App.page st = App.SearchPageM s ->
  FilterSentence.handleSearch slotValues = Some c ->
  App.step (App.QuickSearch slotValues) st
  = App.render (App.searchPage_handleSearch c s st).
Proof.
  intros Hp Hc. unfold App.step, App.dispatch. now rewrite Hp, Hc.
Qed.

Lemma step_UpdateSearch (st : App.State) (r : ResultsPage.State) :
  App.page st = App.ResultsPageM r ->
  ResultsPage.updateDisabled r = false ->
  App.step App.UpdateSearch st
  = App.render (App.resultsPage_handleUpdateSearch r st).
Proof.
  intros Hp Hd. unfold App.step, App.dispatch. now rewrite Hp, Hd.
Qed.

Lemma totalImages_cases (imgs : list ImageRecord) (c : Criterion) :
  (ResultsPage.totalImages imgs c = 0%Z
   /\ (JS.length (filter (SearchPage.handleSearch_filter c) imgs) >? 0)%Z
      = false)
  \/ ((ResultsPage.totalImages imgs c >= 1)%Z
      /\ (JS.length (filter (SearchPage.handleSearch_filter c) imgs) >? 0)%Z
         = true).
Proof.
  unfold ResultsPage.totalImages, ResultsPage.filteredImages.
  change (ResultsPage.filteredImages_filter c)
    with (SearchPage.handleSearch_filter c).
  unfold JS.length.
  destruct (filter (SearchPage.handleSearch_filter c) imgs) as [| x l].
  - left. split; reflexivity.
  - right. split; [simpl List.length; lia |].
    apply Z.gtb_lt. simpl List.length. lia.
Qed.

(** C2, as stated, fails in the sidebar. From the scenario's dataset, a
    search for "Arch" is committed and the sidebar opened. Adding architect
    "Bar" and tag "Window" and pressing Update Search matches no image: the
    error surfaced is the sidebar's own message, not the search page's.
    Adding only "Window" matches one image: the criterion is committed and
    the view, already the results page, does not change. *)
Lemma C2_sidebar_message_and_view :
  let st := run [App.SelectTag "Arch"; App.SearchImages; App.ToggleSidebar]
                (App.loaded Scenario.dataset) in
  let rejected :=
    run [App.SidebarSelectArchitect (Some "Bar");
         App.SidebarSelectTag "Window"; App.UpdateSearch] st in
  let committed := run [App.SidebarSelectTag "Window"; App.UpdateSearch] st in
  (App.currentSearchCriteria rejected = App.currentSearchCriteria st
   /\ localError rejected
      = Some "No images found matching the selected filters."
   /\ localError rejected
      <> Some "No images found matching the selected criteria.")
  /\ (App.currentSearchCriteria committed
      = {| tags := ["Arch"; "Window"]; architect := None |}
      /\ App.currentSearchCriteria committed <> App.currentSearchCriteria st
      /\ App.view st = results
      /\ App.view committed = App.view st).
Proof.
  vm_compute. repeat split; try discriminate.
Qed.

(** C2 (amended): a candidate submitted from the search page or from the
    results sidebar is first counted against the full image list. With no
    match, the view, the active criterion and its identity are unchanged and
    the submitting surface shows its own error: "No images found matching the
    selected criteria." on the search page, "No images found matching the
    selected filters." in the sidebar. With at least one match, the candidate
    becomes the active criterion (a new criteria object) and the view is the
    results page: it changes from the search page, and from the sidebar it
    stays the results page and the sidebar closes. *)
Theorem C2_commit_validation :
  forall st : App.State,
    settled st ->
    (forall (s : SearchPage.State) (c : Criterion),
        App.page st = App.SearchPageM s ->
        let st' := App.render (App.searchPage_handleSearch c s st) in
        (ResultsPage.totalImages (App.images st) c = 0%Z ->
         App.view st' = App.view st
         /\ App.currentSearchCriteria st' = App.currentSearchCriteria st
         /\ App.criteriaId st' = App.criteriaId st
         /\ localError st'
            = Some "No images found matching the selected criteria.")
        /\ ((ResultsPage.totalImages (App.images st) c >= 1)%Z ->
            App.view st' = results
            /\ App.view st' <> App.view st
            /\ App.currentSearchCriteria st' = c
            /\ App.criteriaId st' <> App.criteriaId st))
    /\ (forall r : ResultsPage.State,
           App.page st = App.ResultsPageM r ->
           let c := ResultsPage.newCriteria r in
           let st' := App.render (App.resultsPage_handleUpdateSearch r st) in
           (ResultsPage.totalImages (App.images st) c = 0%Z ->
            App.view st' = App.view st
            /\ App.currentSearchCriteria st' = App.currentSearchCriteria st
            /\ App.criteriaId st' = App.criteriaId st
            /\ localError st'
               = Some "No images found matching the selected filters.")
           /\ ((ResultsPage.totalImages (App.images st) c >= 1)%Z ->
               App.view st' = results
               /\ App.view st' = App.view st
               /\ App.currentSearchCriteria st' = c
               /\ App.criteriaId st' <> App.criteriaId st
               /\ exists r', App.page st' = App.ResultsPageM r'
                             /\ ResultsPage.isSidebarOpen r' = false)).
Proof.
  intros st [Hid Hpage]. split.
  - intros s c Hp st'. subst st'. rewrite Hp in Hpage.
    unfold App.searchPage_handleSearch, SearchPage.handleSearch.
    destruct (totalImages_cases (App.images st) c) as [[Hn Hb] | [Hn Hb]];
      rewrite Hb.
    + split; [intros _ | lia].
      unfold App.render, localError. simpl. rewrite Hpage. simpl. auto.
    + split; [lia | intros _].
      unfold App.render, localError. simpl. rewrite Hpage.
      repeat split; try discriminate. lia.
  - intros r Hp c st'. subst c st'. rewrite Hp in Hpage.
    destruct Hpage as [Hv He].
    unfold App.resultsPage_handleUpdateSearch, ResultsPage.handleUpdateSearch.
    change (ResultsPage.handleUpdateSearch_filter (ResultsPage.newCriteria r))
      with (SearchPage.handleSearch_filter (ResultsPage.newCriteria r)).
    destruct (totalImages_cases (App.images st) (ResultsPage.newCriteria r))
      as [[Hn Hb] | [Hn Hb]]; rewrite Hb.
    + split; [intros _ | lia].
      unfold App.render, localError, ResultsPage.update. simpl.
      rewrite Hv, He, Nat.eqb_refl. simpl. auto.
    + split; [lia | intros _].
      unfold App.render, localError, ResultsPage.update. simpl.
      rewrite Hv, He.
      destruct (Nat.eqb_spec (App.criteriaId st) (App.nextId st)); [lia |].
      repeat split; try lia.
      eexists. split; reflexivity.
Qed.

Lemma C2_commit_validation_witness :
  let st := run [App.SelectTag "Nonexistent"] (App.loaded Scenario.dataset) in
  let c1 := {| tags := ["Arch"]; architect := Some "Foo" |} in
  settled st
  /\ localError (App.step App.SearchImages st)
     = Some "No images found matching the selected criteria."
  /\ App.currentSearchCriteria (App.step App.SearchImages st) = emptyCriterion
  /\ App.currentSearchCriteria
       (App.step (App.QuickSearch [("architecturalElement", "Arch");
                                   ("architect", "Foo")]) st) = c1.
Proof.
  intros st c1.
  assert (Hst : settled st).
  { unfold settled. simpl. split; [lia | reflexivity]. }
  split; [exact Hst |].
  destruct (C2_commit_validation st Hst) as [H _].
  pose (s0 := SearchPage.handleTagSelect "Nonexistent"
                (SearchPage.mount Scenario.dataset)).
  destruct (H s0 (SearchPage.buttonCriteria s0) eq_refl) as [Hzero _].
  destruct (Hzero eq_refl) as [_ [Hc [_ He]]].
  destruct (H s0 c1 eq_refl) as [_ Hpos].
  assert (Hn : (ResultsPage.totalImages (App.images st) c1 >= 1)%Z)
    by (apply Z.le_ge; discriminate).
  destruct (Hpos Hn) as [_ [_ [Hc1 _]]].
  split; [exact He |]. split; [exact Hc | exact Hc1].
Defined.

(** ** C3 and C4: the confirmed tag pivot *)

Lemma step_ConfirmNewSearch (st : App.State) (r : ResultsPage.State) :
  App.page st = App.ResultsPageM r ->
  ResultsPage.showConfirmModal r = true ->
  App.step App.ConfirmNewSearch st
  = App.render (App.resultsPage_confirmNewSearch r st).
Proof.
  intros Hp Hm. unfold App.step, App.dispatch. now rewrite Hp, Hm.
Qed.

Lemma totalImages_witness (imgs : list ImageRecord) (c : Criterion)
  (img : ImageRecord) :
  In img imgs -> ResultsPage.filteredImages_filter c img = true ->
  (ResultsPage.totalImages imgs c >= 1)%Z.
Proof.
  intros Hin Hf. unfold ResultsPage.totalImages, JS.length.
  assert (H : In img (ResultsPage.filteredImages imgs c))
    by (apply filter_In; auto).
  destruct (ResultsPage.filteredImages imgs c); [destruct H |].
  simpl List.length. lia.
Qed.

(** [confirmNewSearch] itself counts nothing: in a state built by hand,
    with a pending tag that no image of the dataset carries (no state the
    application reaches, see [reachable_invariant]), it would replace the
    active criterion by one that matches nothing. *)
Remark confirmNewSearch_counts_nothing :
  let active := {| tags := ["Arch"]; architect := Some "Foo" |} in
  let pivot := {| tags := ["Nonexistent"]; architect := None |} in
  let st :=
    {| App.view := results;
       App.images := Scenario.dataset;
       App.currentSearchCriteria := active;
       App.criteriaId := 1;
       App.nextId := 2;
       App.page :=
         App.ResultsPageM
           (ResultsPage.handleOtherTagClick "Nonexistent"
              (ResultsPage.mount Scenario.dataset active 1)) |} in
  ResultsPage.totalImages Scenario.dataset pivot = 0%Z
  /\ App.currentSearchCriteria (App.step App.ConfirmNewSearch st) = pivot
  /\ App.currentSearchCriteria (App.step App.ConfirmNewSearch st)
     <> App.currentSearchCriteria st.
Proof.
  vm_compute. repeat split; discriminate.
Qed.

(** In every state the loaded application can reach, the pending tag is a
    tag of an image of the dataset: after Confirm on a pending non-empty tag
    the single-tag criterion is the active one (a new criteria object, on
    the results view) and it matches at least one image. *)
Lemma pivot_commit_reachable :
  forall (imgs : list ImageRecord) (st : App.State) (r : ResultsPage.State)
         (tag : string),
    App.reachable imgs st ->
    App.page st = App.ResultsPageM r ->
    ResultsPage.showConfirmModal r = true ->
    ResultsPage.tagToSearch r = Some tag ->
    JS.truthy_string tag = true ->
    let pivot := {| tags := [tag]; architect := None |} in
    let st' := App.step App.ConfirmNewSearch st in
    App.currentSearchCriteria st' = pivot
    /\ App.criteriaId st' <> App.criteriaId st
    /\ App.view st' = results
    /\ (ResultsPage.totalImages (App.images st') pivot >= 1)%Z.
Proof.
  intros imgs st r tag Hreach Hp Hm Ht Htruthy pivot st'. subst pivot st'.
  destruct (reachable_invariant imgs st Hreach) as [Himg [[Hid _] Hpiv]].
  rewrite step_images.
  rewrite (step_ConfirmNewSearch st r Hp Hm).
  destruct (render_criteria (App.resultsPage_confirmNewSearch r st))
    as [Hv [Hc [Hi _]]].
  rewrite Hv, Hc, Hi.
  unfold App.resultsPage_confirmNewSearch, ResultsPage.confirmNewSearch.
  rewrite Ht, Htruthy. simpl.
  repeat split; try lia.
  unfold pivot_from_dataset in Hpiv. rewrite Hp in Hpiv.
  destruct (Hpiv tag Ht) as [img [Hin Htag]].
  apply (totalImages_witness _ _ img Hin).
  unfold ResultsPage.filteredImages_filter, JS.every. simpl.
  now rewrite Htag.
Qed.



(** C4, as stated, fails for the empty tag. On a dataset whose only image
    carries the tags "Arch" and "", a search for "Arch" by "Foo" is
    committed; the empty tag under the image is clicked and the pivot
    confirmed. The guard [if (tagToSearch)] reads the empty string as no tag:
    nothing is committed and the active criterion is still the earlier one. *)
Lemma C4_empty_tag_pivot_commits_nothing :
  let st := run [App.SelectTag "Arch"; App.SelectArchitect (Some "Foo");
                 App.SearchImages; App.OtherTagClick ""]
                (App.loaded [Scenario.blankTag]) in
  localPending st = Some ""
  /\ App.currentSearchCriteria (App.step App.ConfirmNewSearch st)
     = {| tags := ["Arch"]; architect := Some "Foo" |}
  /\ App.currentSearchCriteria (App.step App.ConfirmNewSearch st)
     <> {| tags := [""]; architect := None |}.
Proof.
  vm_compute. repeat split; discriminate.
Qed.

(** C4 (amended): confirming a pivot on a non-empty tag makes the active
    criterion exactly [{tags: [tag], architect: null}], whatever tags and
    architect the previous criterion had; with the empty string as the
    pending tag, Confirm commits nothing and the active criterion stays. In
    both cases the confirmation closes and the pending tag is dropped. *)
Theorem C4_pivot_criterion :
  forall (st : App.State) (r : ResultsPage.State) (tag : string),
    App.page st = App.ResultsPageM r ->
    ResultsPage.showConfirmModal r = true ->
    ResultsPage.tagToSearch r = Some tag ->
    let st' := App.step App.ConfirmNewSearch st in
    App.currentSearchCriteria st'
    = (if JS.truthy_string tag
       then {| tags := [tag]; architect := None |}
       else App.currentSearchCriteria st)
    /\ localPending st' = None
    /\ confirmationOpen st' = false.
Proof.
  intros st r tag Hp Hm Ht st'. subst st'.
  rewrite (step_ConfirmNewSearch st r Hp Hm).
  destruct (render_criteria (App.resultsPage_confirmNewSearch r st))
    as [_ [Hc _]].
  rewrite Hc. unfold localPending, confirmationOpen, App.render,
    App.resultsPage_confirmNewSearch, ResultsPage.confirmNewSearch.
  rewrite Ht.
  destruct (JS.truthy_string tag); simpl.
  - split; [reflexivity |].
    unfold ResultsPage.update. simpl. now destruct (Nat.eqb _ _).
  - split; [reflexivity |].
    destruct (App.view st); simpl; [split; reflexivity |].
    unfold ResultsPage.update. simpl. now destruct (Nat.eqb _ _).
Qed.

Lemma C4_pivot_criterion_witness :
  let st := run [App.SelectTag "Arch"; App.SelectArchitect (Some "Foo");
                 App.SearchImages; App.OtherTagClick "Window"]
                (App.loaded Scenario.dataset) in
  App.currentSearchCriteria st
  = {| tags := ["Arch"]; architect := Some "Foo" |}
  /\ confirmationOpen st = true
  /\ App.currentSearchCriteria (App.step App.ConfirmNewSearch st)
     = {| tags := ["Window"]; architect := None |}
  /\ confirmationOpen (App.step App.ConfirmNewSearch st) = false.
Proof.
  intros st. split; [reflexivity |]. split; [reflexivity |].
  destruct (C4_pivot_criterion st _ "Window" eq_refl eq_refl eq_refl)
    as [H [_ Hclosed]].
  split; [exact H | exact Hclosed].
Defined.

(** ** C6: the cursor returns to the first image *)

(** C6: whatever the event (search-page submit, sidebar Update Search,
    confirmed pivot or any other) and whatever the cursor was, when the
    active criterion changes (its value, or the criteria object) and the
    results page is shown, the cursor is 0. *)
Theorem C6_cursor_reset :
  forall (st : App.State) (e : App.Event),
    settled st ->
    let st' := App.step e st in
    App.criteriaId st' <> App.criteriaId st
    \/ App.currentSearchCriteria st' <> App.currentSearchCriteria st ->
    App.view st' = results ->
    cursor st' = Some 0%Z.
Proof.
  intros st e [Hid Hpage] st' Hchange Hview. subst st'.
  unfold App.step in *.
  destruct (render_criteria (App.dispatch e st)) as [Hv [Hc [Hi _]]].
  rewrite Hv in Hview. rewrite Hc, Hi in Hchange.
  destruct (dispatch_cases e st)
    as [_ [Hkind [[_ [Hc1 [Hi1 _]]] | [Hi1 _]]]].
  - destruct Hchange; congruence.
  - unfold cursor, App.render. rewrite Hview.
    destruct (App.page st) as [s | r];
      destruct (App.page (App.dispatch e st)) as [s1 | r1];
      simpl in Hkind; try contradiction; simpl; [reflexivity |].
    destruct Hpage as [_ He].
    unfold ResultsPage.update.
    destruct (Nat.eqb_spec (ResultsPage.effectCriteria r1)
                           (App.criteriaId (App.dispatch e st)));
      [lia | reflexivity].
Qed.

Lemma C6_cursor_reset_witness :
  let st := run [App.SelectTag "Arch"; App.SearchImages; App.Next;
                 App.ToggleSidebar; App.SidebarSelectArchitect (Some "Bar")]
                (App.loaded Scenario.dataset) in
  settled st
  /\ cursor st = Some 1%Z
  /\ App.currentSearchCriteria (App.step App.UpdateSearch st)
     = {| tags := ["Arch"]; architect := Some "Bar" |}
  /\ cursor (App.step App.UpdateSearch st) = Some 0%Z.
Proof.
  intros st.
  assert (Hst : settled st).
  { unfold settled. simpl. split; [lia | split; reflexivity]. }
  split; [exact Hst |]. split; [reflexivity |]. split; [reflexivity |].
  apply (C6_cursor_reset st App.UpdateSearch Hst).
  - left. discriminate.
  - reflexivity.
Defined.

(** ** C10: Home *)

(** C10: Home on the results page shows the search page again, freshly
    mounted, and makes the empty criterion [{tags: [], architect: null}] the
    active one: the committed search is discarded; the dataset is the same. *)
Theorem C10_home :
  forall (st : App.State) (r : ResultsPage.State),
    App.page st = App.ResultsPageM r ->
    let st' := App.step App.Home st in
    App.view st' = search
    /\ App.currentSearchCriteria st' = {| tags := []; architect := None |}
    /\ App.images st' = App.images st
    /\ App.page st' = App.SearchPageM (SearchPage.mount (App.images st)).
Proof.
  intros st r Hp st'. subst st'.
  unfold App.step, App.dispatch. rewrite Hp.
  unfold App.render, App.handleHome. simpl. rewrite Hp. simpl. auto.
Qed.

Lemma C10_home_witness :
  let st := run [App.SelectTag "Arch"; App.SearchImages; App.Next]
                (App.loaded Scenario.dataset) in
  App.currentSearchCriteria st = {| tags := ["Arch"]; architect := None |}
  /\ App.view (App.step App.Home st) = search
  /\ App.currentSearchCriteria (App.step App.Home st)
     = {| tags := []; architect := None |}
  /\ App.images (App.step App.Home st) = Scenario.dataset.
Proof.
  intros st. split; [reflexivity |].
  destruct (C10_home st _ eq_refl) as [H1 [H2 [H3 _]]].
  split; [exact H1 |]. split; [exact H2 | exact H3].
Defined.

(** ** C9: the architect option list *)

Lemma compare_Lt_trans (x y z : string) :
  String.compare x y = Lt -> String.compare y z = Lt ->
  String.compare x z = Lt.
Proof.
  revert y z. induction x as [| a x IH]; intros [| b y] [| c z]; simpl;
    try discriminate; auto.
  unfold Ascii.compare.
  destruct (N.compare_spec (N_of_ascii a) (N_of_ascii b)) as [E1 | L1 | G1];
    try discriminate;
    destruct (N.compare_spec (N_of_ascii b) (N_of_ascii c))
      as [E2 | L2 | G2]; try discriminate; intros H1 H2.
  - rewrite E1, E2, N.compare_refl. eauto.
  - rewrite E1. now apply N.compare_lt_iff in L2 as ->.
  - rewrite <- E2. now apply N.compare_lt_iff in L1 as ->.
  - assert (L : (N_of_ascii a < N_of_ascii c)%N) by lia.
    now apply N.compare_lt_iff in L as ->.
Qed.

Lemma sort_leb_cases (x y : string) :
  sort_le x y <-> String.compare x y = Lt \/ x = y.
Proof.
  unfold sort_le, JS.sort_leb, String.leb. split.
  - destruct (String.compare x y) eqn:E; try discriminate; auto.
    right. now apply String.compare_eq_iff.
  - intros [-> | ->]; [reflexivity |].
    destruct (String.leb_total y y) as [H | H]; exact H.
Qed.

Lemma sort_leb_trans (x y z : string) :
  sort_le x y -> sort_le y z -> sort_le x z.
Proof.
  rewrite !sort_leb_cases. intros [H1 | ->] [H2 | ->]; auto.
  left. eapply compare_Lt_trans; eauto.
Qed.

Lemma sort_leb_total (x y : string) : sort_le x y \/ sort_le y x.
Proof. apply String.leb_total. Qed.

Lemma sort_leb_antisym (x y : string) : sort_le x y -> sort_le y x -> x = y.
Proof. apply String.leb_antisym. Qed.

Lemma sort_insert_Permutation (x : string) (l : list string) :
  Permutation (JS.sort_insert x l) (x :: l).
Proof.
  induction l as [| y l IH]; simpl; auto.
  destruct (JS.sort_leb x y); auto.
  rewrite IH. apply perm_swap.
Qed.

Lemma sort_Permutation (l : list string) : Permutation (JS.sort l) l.
Proof.
  induction l as [| x l IH]; simpl; auto.
  rewrite sort_insert_Permutation. now constructor.
Qed.

Lemma sort_insert_sorted (x : string) (l : list string) :
  StronglySorted sort_le l -> StronglySorted sort_le (JS.sort_insert x l).
Proof.
  induction 1 as [| y l Hs IH Hall]; simpl.
  - repeat constructor.
  - destruct (JS.sort_leb x y) eqn:E.
    + constructor; [now constructor |].
      constructor; [exact E |].
      eapply Forall_impl; [| exact Hall].
      intros z Hz. eapply sort_leb_trans; eauto.
    + constructor; [exact IH |].
      eapply Permutation_Forall;
        [symmetry; apply sort_insert_Permutation |].
      constructor; [| exact Hall].
      destruct (sort_leb_total x y) as [H | H]; [| exact H].
      unfold sort_le in H. congruence.
Qed.

Lemma sort_sorted (l : list string) : StronglySorted sort_le (JS.sort l).
Proof.
  induction l as [| x l IH]; simpl; [constructor |].
  now apply sort_insert_sorted.
Qed.

(** A set of strings has one sorted enumeration, so the result of [sort]
    on distinct strings does not depend on the sorting algorithm. *)
Lemma sorted_unique (l1 : list string) :
  forall l2,
    StronglySorted sort_le l1 -> StronglySorted sort_le l2 ->
    NoDup l1 -> NoDup l2 ->
    (forall x, In x l1 <-> In x l2) ->
    l1 = l2.
Proof.
  induction l1 as [| a l1 IH]; intros [| b l2] Hs1 Hs2 Hn1 Hn2 Hmem.
  - reflexivity.
  - exfalso. apply (proj2 (Hmem b)). now left.
  - exfalso. apply (proj1 (Hmem a)). now left.
  - inversion Hs1 as [| ? ? Hs1' Ha]; subst.
    inversion Hs2 as [| ? ? Hs2' Hb]; subst.
    inversion Hn1 as [| ? ? Ha' Hn1']; subst.
    inversion Hn2 as [| ? ? Hb' Hn2']; subst.
    rewrite Forall_forall in Ha, Hb.
    assert (Hab : a = b).
    { destruct (proj1 (Hmem a) (or_introl eq_refl)) as [E | Hin]; auto.
      destruct (proj2 (Hmem b) (or_introl eq_refl)) as [E | Hin']; auto.
      apply sort_leb_antisym; auto. }
    subst b. f_equal. apply IH; auto.
    intros x. split; intros Hx.
    + destruct (proj1 (Hmem x) (or_intror Hx)) as [E | H]; auto.
      subst x. contradiction.
    + destruct (proj2 (Hmem x) (or_intror Hx)) as [E | H]; auto.
      subst x. contradiction.
Qed.

Lemma filter_Boolean_In (arr : list (option string)) (a : string) :
  In a (JS.filter_Boolean arr) <-> a <> "" /\ In (Some a) arr.
Proof.
  induction arr as [| v arr IH]; simpl.
  - tauto.
  - destruct v as [[| ch s] |]; simpl; rewrite ?IH.
    + split; [tauto |]. intros [Hne [E | H]]; auto. congruence.
    + split.
      * intros [<- | [Hne H]]; [split; [discriminate | auto] | tauto].
      * intros [Hne [E | H]]; [left; congruence | tauto].
    + split; [tauto |]. intros [Hne [E | H]]; [discriminate | tauto].
Qed.

Lemma collect_architects_In (images : list ImageRecord) (a : string) :
  In a (collect_architects images)
  <-> exists img, In img images /\ img_architect img = Some a.
Proof.
  unfold collect_architects. rewrite in_flat_map. split.
  - intros [img [Hin Ha]]. exists img. split; [assumption |].
    destruct (img_architect img); simpl in Ha; [| contradiction].
    destruct Ha as [-> | []]. reflexivity.
  - intros [img [Hin Ha]]. exists img. split; [assumption |].
    rewrite Ha. now left.
Qed.

Lemma architectList_effect_In (images : list ImageRecord) (a : string) :
  In a (architectList_effect images [])
  <-> a <> "" /\ exists img, In img images /\ img_architect img = Some a.
Proof.
  unfold architectList_effect, JSSet.to_array.
  destruct images as [| img0 images].
  - simpl. split; [contradiction | intros [_ [img [[] _]]]].
  - replace (JS.length (img0 :: images) >? 0)%Z with true
      by (symmetry; apply Z.gtb_lt; unfold JS.length; simpl List.length; lia).
    split.
    + intros H. apply (Permutation_in _ (sort_Permutation _)) in H.
      apply of_array_In, filter_Boolean_In in H. destruct H as [Hne H].
      split; [assumption |]. apply in_map_iff in H.
      destruct H as [img [Ha Hin]]. now exists img.
    + intros [Hne [img [Hin Ha]]].
      apply (Permutation_in _ (Permutation_sym (sort_Permutation _))).
      apply of_array_In, filter_Boolean_In. split; [assumption |].
      apply in_map_iff. now exists img.
Qed.

Lemma architectList_effect_NoDup (images : list ImageRecord) :
  NoDup (architectList_effect images []).
Proof.
  unfold architectList_effect, JSSet.to_array.
  destruct (_ >? 0)%Z; [| constructor].
  eapply Permutation_NoDup;
    [symmetry; apply sort_Permutation | apply of_array_wf].
Qed.

Lemma architectList_effect_sorted (images : list ImageRecord) :
  StronglySorted sort_le (architectList_effect images []).
Proof.
  unfold architectList_effect. destruct (_ >? 0)%Z; [| constructor].
  apply sort_sorted.
Qed.

(** C9, as stated, fails: [filter(Boolean)] drops the empty string together
    with the absent values. An image whose architect field is the empty
    string has a non-absent architect, which the option list does not
    contain. *)
Lemma C9_empty_architect_dropped :
  let images := [Scenario.A; Scenario.unnamed; Scenario.B] in
  img_architect Scenario.unnamed = Some ""
  /\ SearchPage.architectList (SearchPage.mount images) = ["Bar"; "Foo"]
  /\ distinctArchitects_spec images = [""; "Bar"; "Foo"]
  /\ ~ In "" (SearchPage.architectList (SearchPage.mount images)).
Proof.
  vm_compute. repeat split; try reflexivity.
  intros [H | [H | []]]; discriminate.
Qed.

(** C9 (amended): on both pages the architect option list is the result of
    collecting the architect field of every image record where it is neither
    absent nor the empty string, deduplicating and sorting
    lexicographically: each such value appears exactly once, nothing else
    appears, and the list is sorted. *)
Theorem C9_architect_list :
  forall (images : list ImageRecord) (c : Criterion) (id : nat),
    let l := SearchPage.architectList (SearchPage.mount images) in
    ResultsPage.architectList (ResultsPage.mount images c id) = l
    /\ (forall a, In a l
                  <-> a <> ""
                      /\ exists img, In img images
                                     /\ img_architect img = Some a)
    /\ (forall a, In a l -> count_occ string_dec l a = 1)
    /\ StronglySorted sort_le l
    /\ l = distinctArchitects_spec
             (filter (fun img => JS.truthy (img_architect img)) images).
Proof.
  intros images c id l. subst l. simpl.
  split; [reflexivity |].
  split; [apply architectList_effect_In |].
  split; [apply NoDup_count_occ', architectList_effect_NoDup |].
  split; [apply architectList_effect_sorted |].
  apply sorted_unique.
  - apply architectList_effect_sorted.
  - apply sort_sorted.
  - apply architectList_effect_NoDup.
  - eapply Permutation_NoDup; [symmetry; apply sort_Permutation |].
    apply NoDup_nodup.
  - intros a. rewrite architectList_effect_In.
    split.
    + intros [Hne [img [Hin Ha]]].
      apply (Permutation_in _ (Permutation_sym (sort_Permutation _))).
      apply nodup_In, collect_architects_In. exists img.
      split; [| assumption]. apply filter_In. split; [assumption |].
      rewrite Ha. destruct a; [congruence | reflexivity].
    + intros H. apply (Permutation_in _ (sort_Permutation _)) in H.
      apply nodup_In, collect_architects_In in H.
      destruct H as [img [Hin Ha]]. apply filter_In in Hin.
      destruct Hin as [Hin Ht]. rewrite Ha in Ht.
      split; [intros -> ; discriminate | now exists img].
Qed.

Lemma C9_architect_list_witness :
  SearchPage.architectList (SearchPage.mount Scenario.dataset)
  = ["Bar"; "Foo"]
  /\ In "Foo" (SearchPage.architectList (SearchPage.mount Scenario.dataset)).
Proof.
  split; [reflexivity |].
  destruct (C9_architect_list Scenario.dataset emptyCriterion 0)
    as [_ [H _]].
  apply H. split; [discriminate |].
  exists Scenario.A. split; [now left | reflexivity].
Defined.

(** ** The scenarios of the specification, run through the application *)

(** "Arch" is committed with the cursor on A; Next moves to B and Next again
    wraps to A. *)
Example scenario_navigation :
  let st := run [App.SelectTag "Arch"; App.SearchImages]
                (App.loaded Scenario.dataset) in
  let shown st :=
    match App.page st with
    | App.ResultsPageM r =>
        ResultsPage.currentImage (App.images st)
                                 (App.currentSearchCriteria st) r
    | App.SearchPageM _ => None
    end in
  App.view st = results
  /\ shown st = Some Scenario.A
  /\ shown (App.step App.Next st) = Some Scenario.B
  /\ shown (App.step App.Next (App.step App.Next st)) = Some Scenario.A.
Proof. repeat split. Qed.

(** "Nonexistent" matches no image: the commit is rejected, the error is
    shown and the view and the active criterion stay. *)
Example scenario_rejected :
  let st := run [App.SelectTag "Nonexistent"; App.SearchImages]
                (App.loaded Scenario.dataset) in
  App.view st = search
  /\ App.currentSearchCriteria st = emptyCriterion
  /\ localError st = Some SearchPage.noImagesFound.
Proof. repeat split. Qed.

(** * Further properties of the code *)

(** ** The result list as a function of the criterion *)

Lemma filter_implies_incl {A : Type} (f g : A -> bool) (l : list A) :
  (forall x, In x l -> f x = true -> g x = true) ->
  incl (filter f l) (filter g l)
  /\ List.length (filter f l) <= List.length (filter g l).
Proof.
  induction l as [| x l IH]; intros H; simpl.
  - split; [apply incl_refl | lia].
  - destruct IH as [IHi IHl]; [intros y Hy; apply H; now right |].
    destruct (f x) eqn:Hf.
    + rewrite (H x (or_introl eq_refl) Hf). split.
      * intros y [<- | Hy]; [now left | right; now apply IHi].
      * simpl. lia.
    + destruct (g x); split; simpl; try lia; try assumption.
      intros y Hy. right. now apply IHi.
Qed.

(** X1: refining a criterion never widens the results. When a criterion
    asks for all the tags of another one (and possibly more), with the same
    architect or where the other one asks for none, every image it shows is
    shown by the other one, and it shows at most as many. *)
Theorem X1_refining_narrows :
  forall (images : list ImageRecord) (c c' : Criterion),
    (forall tag, In tag (tags c) -> In tag (tags c')) ->
    JS.truthy (architect c) = false \/ architect c' = architect c ->
    incl (ResultsPage.filteredImages images c')
         (ResultsPage.filteredImages images c)
    /\ (ResultsPage.totalImages images c'
        <= ResultsPage.totalImages images c)%Z.
Proof.
  intros images c c' Htags Harch.
  unfold ResultsPage.totalImages, ResultsPage.filteredImages, JS.length.
  destruct (filter_implies_incl (ResultsPage.filteredImages_filter c')
              (ResultsPage.filteredImages_filter c) images) as [Hi Hl].
  - intros img _ Hm.
    rewrite filteredImages_filter_eq in *.
    apply handleSearch_filter_true in Hm. destruct Hm as [Ha Ht].
    apply handleSearch_filter_true. split.
    + destruct Harch as [Hf | He].
      * apply truthy_false in Hf. tauto.
      * rewrite <- He. tauto.
    + intros tag Hin. apply Ht. now apply Htags.
  - split; [exact Hi | lia].
Qed.

Lemma X1_refining_narrows_witness :
  let c := {| tags := ["Arch"]; architect := None |} in
  let c' := {| tags := ["Window"; "Arch"]; architect := Some "Foo" |} in
  (ResultsPage.totalImages Scenario.dataset c'
   <= ResultsPage.totalImages Scenario.dataset c)%Z
  /\ ResultsPage.totalImages Scenario.dataset c = 2%Z
  /\ ResultsPage.totalImages Scenario.dataset c' = 1%Z.
Proof.
  intros c c'. split; [| split; reflexivity].
  apply (X1_refining_narrows Scenario.dataset c c').
  - intros tag [<- | []]. right. now left.
  - left. reflexivity.
Defined.

Lemma filteredImages_same_tags (images : list ImageRecord) (c c' : Criterion) :
  (forall tag, In tag (tags c) <-> In tag (tags c')) ->
  JS.or_null (architect c) = JS.or_null (architect c') ->
  ResultsPage.filteredImages images c = ResultsPage.filteredImages images c'.
Proof.
  intros Htags Harch. unfold ResultsPage.filteredImages.
  apply filter_ext. intros img.
  destruct (ResultsPage.filteredImages_filter c img) eqn:E1,
           (ResultsPage.filteredImages_filter c' img) eqn:E2; auto;
    rewrite filteredImages_filter_eq in *.
  - rewrite <- E2. symmetry. apply handleSearch_filter_true.
    apply handleSearch_filter_true in E1. destruct E1 as [Ha Ht]. split.
    + unfold JS.or_null in Harch.
      destruct (architect c) as [[| ch a] |], (architect c') as [[| ch' a'] |];
        simpl in Harch; try discriminate; auto.
      injection Harch as <- <-. destruct Ha as [Ha | [Ha | Ha]];
        try discriminate; auto.
    + intros tag Hin. apply Ht. now apply Htags.
  - rewrite <- E1. apply handleSearch_filter_true.
    apply handleSearch_filter_true in E2. destruct E2 as [Ha Ht]. split.
    + unfold JS.or_null in Harch.
      destruct (architect c) as [[| ch a] |], (architect c') as [[| ch' a'] |];
        simpl in Harch; try discriminate; auto.
      injection Harch as <- <-. destruct Ha as [Ha | [Ha | Ha]];
        try discriminate; auto.
    + intros tag Hin. apply Ht. now apply Htags.
Qed.

(** X2: the result list depends on the criterion's tags only as a set, and
    on its architect only up to reading the empty string as none: two
    criteria with the same tags in any order and multiplicity give the same
    images in the same order. *)
Theorem X2_results_of_tag_set :
  forall (images : list ImageRecord) (c c' : Criterion),
    (forall tag, In tag (tags c) <-> In tag (tags c')) ->
    JS.or_null (architect c) = JS.or_null (architect c') ->
    ResultsPage.filteredImages images c = ResultsPage.filteredImages images c'.
Proof. exact filteredImages_same_tags. Qed.

Lemma X2_results_of_tag_set_witness :
  ResultsPage.filteredImages Scenario.dataset
    {| tags := ["Arch"; "Window"; "Arch"]; architect := Some "" |}
  = ResultsPage.filteredImages Scenario.dataset
      {| tags := ["Window"; "Arch"]; architect := None |}.
Proof.
  apply X2_results_of_tag_set; [| reflexivity].
  intros tag. simpl. tauto.
Defined.

(** ** The sidebar draft *)

Lemma of_array_NoDup (arr : list string) :
  NoDup arr -> JSSet.of_array arr = arr.
Proof.
  intros H. unfold JSSet.of_array, JSSet.empty. now rewrite add_fold_fresh.
Qed.

(** X3: the sidebar draft is seeded from the active criterion. Submitting
    the draft as seeded, unedited, asks for the same images as the active
    criterion; and when the criterion's tags are distinct and its architect
    is not the empty string, the draft's criteria object equals the active
    criterion. *)
Theorem X3_sidebar_seed_round_trip :
  forall (images : list ImageRecord) (c : Criterion) (id : nat),
    let seeded := ResultsPage.newCriteria (ResultsPage.mount images c id) in
    ResultsPage.filteredImages images seeded
    = ResultsPage.filteredImages images c
    /\ (NoDup (tags c) -> architect c <> Some "" -> seeded = c).
Proof.
  intros images c id seeded. subst seeded.
  unfold ResultsPage.newCriteria, ResultsPage.mount. simpl. split.
  - apply filteredImages_same_tags; simpl.
    + intros tag. unfold JSSet.to_array. apply of_array_In.
    + unfold JS.or_null. now destruct (architect c) as [[| ch a] |].
  - intros Hnd Hne. unfold JSSet.to_array. rewrite of_array_NoDup by assumption.
    destruct c as [ts [[| ch a] |]]; unfold JS.or_null; simpl in *;
      congruence.
Qed.

Lemma X3_sidebar_seed_round_trip_witness :
  let c := {| tags := ["Arch"; "Window"]; architect := Some "Foo" |} in
  ResultsPage.newCriteria (ResultsPage.mount Scenario.dataset c 1) = c.
Proof.
  intros c.
  destruct (X3_sidebar_seed_round_trip Scenario.dataset c 1) as [_ H].
  apply H; [| discriminate].
  repeat constructor; simpl; intuition discriminate.
Defined.

(** ** Next and Previous *)

Lemma next_previous_inverse (N : Z) (s : ResultsPage.State) :
  (0 <= ResultsPage.currentIndex s < N)%Z ->
  ResultsPage.currentIndex
    (ResultsPage.handlePrevious N (ResultsPage.handleNext N s))
  = ResultsPage.currentIndex s
  /\ ResultsPage.currentIndex
       (ResultsPage.handleNext N (ResultsPage.handlePrevious N s))
     = ResultsPage.currentIndex s
  /\ (0 <= ResultsPage.currentIndex (ResultsPage.handleNext N s) < N)%Z
  /\ (0 <= ResultsPage.currentIndex (ResultsPage.handlePrevious N s) < N)%Z.
Proof.
  intros Hi.
  assert (HN : (0 < N)%Z) by lia.
  assert (Hn : (0 <= ResultsPage.currentIndex (ResultsPage.handleNext N s)
                < N)%Z).
  { rewrite handleNext_index by lia. now apply Z.mod_pos_bound. }
  assert (Hp : (0 <= ResultsPage.currentIndex (ResultsPage.handlePrevious N s)
                < N)%Z).
  { rewrite handlePrevious_index by lia. now apply Z.mod_pos_bound. }
  split; [| split; [| split; assumption]].
  - rewrite handlePrevious_index by lia. rewrite handleNext_index by lia.
    destruct (Z.eq_dec (ResultsPage.currentIndex s + 1) N) as [E | E].
    + rewrite E, Z.mod_same by lia.
      replace (0 - 1 + N)%Z with (N - 1)%Z by lia.
      rewrite Z.mod_small by lia. lia.
    + rewrite (Z.mod_small (ResultsPage.currentIndex s + 1)) by lia.
      replace (ResultsPage.currentIndex s + 1 - 1 + N)%Z
        with (ResultsPage.currentIndex s + 1 * N)%Z by lia.
      rewrite Z.mod_add by lia. now apply Z.mod_small.
  - rewrite handleNext_index by lia. rewrite handlePrevious_index by lia.
    destruct (Z.eq_dec (ResultsPage.currentIndex s) 0) as [E | E].
    + rewrite E. replace (0 - 1 + N)%Z with (N - 1)%Z by lia.
      rewrite (Z.mod_small (N - 1)) by lia.
      replace (N - 1 + 1)%Z with N by lia. apply Z.mod_same. lia.
    + replace (ResultsPage.currentIndex s - 1 + N)%Z
        with (ResultsPage.currentIndex s - 1 + 1 * N)%Z by lia.
      rewrite Z.mod_add by lia.
      rewrite (Z.mod_small (ResultsPage.currentIndex s - 1)) by lia.
      replace (ResultsPage.currentIndex s - 1 + 1)%Z
        with (ResultsPage.currentIndex s) by lia.
      now apply Z.mod_small.
Qed.

(** X4: over [N > 0] images and from a cursor [0 <= i < N], Previous undoes
    Next and Next undoes Previous, and both leave the cursor within
    [0 <= i < N]. *)
Theorem X4_next_previous_inverse :
  forall (N : Z) (s : ResultsPage.State),
    (0 <= ResultsPage.currentIndex s < N)%Z ->
    ResultsPage.currentIndex
      (ResultsPage.handlePrevious N (ResultsPage.handleNext N s))
    = ResultsPage.currentIndex s
    /\ ResultsPage.currentIndex
         (ResultsPage.handleNext N (ResultsPage.handlePrevious N s))
       = ResultsPage.currentIndex s
    /\ (0 <= ResultsPage.currentIndex (ResultsPage.handleNext N s) < N)%Z
    /\ (0 <= ResultsPage.currentIndex (ResultsPage.handlePrevious N s) < N)%Z.
Proof. exact next_previous_inverse. Qed.

Lemma X4_next_previous_inverse_witness :
  let s := ResultsPage.handleNext 2
             (ResultsPage.mount Scenario.dataset
                {| tags := ["Arch"]; architect := None |} 1) in
  ResultsPage.currentIndex s = 1%Z
  /\ ResultsPage.currentIndex
       (ResultsPage.handlePrevious 2 (ResultsPage.handleNext 2 s)) = 1%Z.
Proof.
  intros s. split; [reflexivity |].
  assert (Hi : (0 <= ResultsPage.currentIndex s < 2)%Z)
    by (split; [discriminate | reflexivity]).
  destruct (X4_next_previous_inverse 2 s Hi) as [H _]. exact H.
Defined.

(** ** What every reachable state satisfies *)

Lemma totalImages_positive (imgs : list ImageRecord) (c : Criterion) :
  (JS.length (filter (SearchPage.handleSearch_filter c) imgs) >? 0)%Z = true ->
  (0 < ResultsPage.totalImages imgs c)%Z.
Proof.
  intros H. destruct (totalImages_cases imgs c) as [[_ Hb] | [Hn _]];
    [congruence | lia].
Qed.

Lemma keep_search_page (st : App.State) (s' : SearchPage.State) :
  App.view st = search ->
  App.currentSearchCriteria st = emptyCriterion ->
  JSSet.wf (SearchPage.selectedTags s') ->
  page_invariant (App.render (App.setPage (App.SearchPageM s') st)).
Proof.
  intros Hv Hc Hwf. unfold page_invariant, App.render. simpl.
  rewrite Hv. simpl. auto.
Qed.

Lemma keep_results_page (st : App.State) (r' : ResultsPage.State) :
  App.view st = results ->
  ResultsPage.effectCriteria r' = App.criteriaId st ->
  nonEmpty (App.currentSearchCriteria st) ->
  JSSet.wf (ResultsPage.sidebarSelectedTags r') ->
  (0 <= ResultsPage.currentIndex r'
   < ResultsPage.totalImages (App.images st) (App.currentSearchCriteria st))%Z ->
  page_invariant (App.render (App.setPage (App.ResultsPageM r') st)).
Proof.
  intros Hv He Hne Hwf Hi. unfold page_invariant, App.render. simpl.
  rewrite Hv. unfold ResultsPage.update. rewrite He, Nat.eqb_refl. simpl.
  auto.
Qed.

Lemma commit_invariant (c : Criterion) (st : App.State) :
  match App.page st with
  | App.SearchPageM _ => True
  | App.ResultsPageM r => ResultsPage.effectCriteria r < App.nextId st
  end ->
  nonEmpty c ->
  (0 < ResultsPage.totalImages (App.images st) c)%Z ->
  page_invariant (App.render (App.handleSearch c st)).
Proof.
  intros Hp Hne Hn. unfold page_invariant, App.render. simpl.
  destruct (App.page st) as [s | r]; simpl.
  - repeat split; auto; try lia. apply of_array_wf.
  - unfold ResultsPage.update.
    destruct (Nat.eqb_spec (ResultsPage.effectCriteria r) (App.nextId st));
      [lia |].
    simpl. repeat split; auto; try lia. apply of_array_wf.
Qed.

Lemma hasSelection_nonEmpty (s : SearchPage.State) :
  SearchPage.hasSelection s = true -> nonEmpty (SearchPage.buttonCriteria s).
Proof.
  unfold SearchPage.hasSelection, nonEmpty, SearchPage.buttonCriteria,
    JSSet.size, JSSet.to_array. simpl.
  intros H. apply orb_true_iff in H. destruct H as [H | H]; [left | now right].
  destruct (SearchPage.selectedTags s); [discriminate | discriminate].
Qed.

Lemma quickSearch_nonEmpty (slotValues : FilterSentence.SlotValues)
  (c : Criterion) :
  FilterSentence.handleSearch slotValues = Some c ->
  nonEmpty c /\ architect c <> Some "".
Proof.
  unfold FilterSentence.handleSearch, nonEmpty.
  destruct (_ || _) eqn:H; [| discriminate].
  intros E. injection E as <-. simpl. split.
  - apply orb_true_iff in H. destruct H as [H | H]; [left | now right].
    destruct (map snd _); [discriminate | discriminate].
  - unfold JS.or_null.
    now destruct (FilterSentence.get slotValues "architect") as [[| ch a] |].
Qed.

Lemma updateEnabled_nonEmpty (r : ResultsPage.State) :
  ResultsPage.updateDisabled r = false -> nonEmpty (ResultsPage.newCriteria r).
Proof.
  unfold ResultsPage.updateDisabled, nonEmpty, ResultsPage.newCriteria,
    JSSet.size, JSSet.to_array. simpl.
  intros H. apply andb_false_iff in H. destruct H as [H | H].
  - left. destruct (ResultsPage.sidebarSelectedTags r); discriminate.
  - right. now apply negb_false_iff in H.
Qed.

Lemma index_in_range {A : Type} (l : list A) (i : Z) :
  (0 <= i < JS.length l)%Z -> exists x, JS.index l i = Some x.
Proof.
  intros [H0 H1]. unfold JS.index, JS.length in *.
  destruct (Z.ltb_spec i 0); [lia |].
  destruct (nth_error l (Z.to_nat i)) eqn:E; [eauto |].
  apply nth_error_None in E. lia.
Qed.

(** One event keeps the page invariant. *)
Lemma step_page_invariant (e : App.Event) (st : App.State) :
  App.criteriaId st < App.nextId st ->
  pivot_from_dataset st ->
  page_invariant st ->
  page_invariant (App.step e st).
Proof.
  intros Hid Hpiv Hinv.
  assert (Hsame : page_invariant (App.render st)).
  { unfold page_invariant in *. unfold App.render.
    destruct (App.page st) as [s | r] eqn:Hp.
    - destruct Hinv as [Hv H]. rewrite Hv, Hp. auto.
    - destruct Hinv as [Hv [He H]]. rewrite Hv. simpl.
      unfold ResultsPage.update. rewrite He, Nat.eqb_refl. auto. }
  unfold App.step, App.dispatch.
  unfold page_invariant in Hinv. unfold pivot_from_dataset in Hpiv.
  destruct (App.page st) as [s | r] eqn:Hp.
  - destruct Hinv as [Hv [Hc Hwf]].
    destruct e; try exact Hsame.
    + (* QuickSearch *)
      destruct (FilterSentence.handleSearch slotValues) as [c |] eqn:Hq;
        [| exact Hsame].
      unfold App.searchPage_handleSearch, SearchPage.handleSearch.
      destruct (_ >? 0)%Z eqn:Hn.
      * apply commit_invariant; simpl; auto.
        -- apply (quickSearch_nonEmpty _ _ Hq).
        -- now apply totalImages_positive.
      * now apply keep_search_page.
    + apply keep_search_page; auto. now apply toggleTag_wf.
    + now apply keep_search_page.
    + apply keep_search_page; auto. simpl.
      rewrite copy_wf by assumption. now apply delete_wf.
    + now apply keep_search_page.
    + (* SearchImages *)
      destruct (SearchPage.hasSelection s) eqn:Hsel; [| exact Hsame].
      unfold App.searchPage_handleSearch, SearchPage.handleSearch.
      destruct (_ >? 0)%Z eqn:Hn.
      * apply commit_invariant; simpl; auto.
        -- now apply hasSelection_nonEmpty.
        -- now apply totalImages_positive.
      * now apply keep_search_page.
  - destruct Hinv as [Hv [He [Hne [Hwf Hi]]]].
    destruct e; try exact Hsame.
    + (* Next *)
      destruct (App.navigationShown r st); [| exact Hsame].
      apply keep_results_page; auto.
      rewrite handleNext_index by lia. apply Z.mod_pos_bound. lia.
    + (* Previous *)
      destruct (App.navigationShown r st); [| exact Hsame].
      apply keep_results_page; auto.
      rewrite handlePrevious_index by lia. apply Z.mod_pos_bound. lia.
    + destruct (App.tagButtonShown tag r st); [| exact Hsame].
      now apply keep_results_page.
    + (* ConfirmNewSearch *)
      destruct (ResultsPage.showConfirmModal r); [| exact Hsame].
      unfold App.resultsPage_confirmNewSearch, ResultsPage.confirmNewSearch.
      destruct (ResultsPage.tagToSearch r) as [tag |] eqn:Ht;
        [| now apply keep_results_page].
      destruct (JS.truthy_string tag) eqn:Htr;
        [| now apply keep_results_page].
      apply commit_invariant; simpl.
      * lia.
      * left. discriminate.
      * destruct (Hpiv tag eq_refl) as [img [Hin Htag]].
        assert (H : (ResultsPage.totalImages (App.images st)
                       {| tags := [tag]; architect := None |} >= 1)%Z).
        { apply (totalImages_witness _ _ img Hin).
          unfold ResultsPage.filteredImages_filter, JS.every. simpl.
          now rewrite Htag. }
        lia.
    + destruct (ResultsPage.showConfirmModal r); [| exact Hsame].
      now apply keep_results_page.
    + now apply keep_results_page.
    + apply keep_results_page; auto. now apply toggleTag_wf.
    + now apply keep_results_page.
    + (* UpdateSearch *)
      destruct (ResultsPage.updateDisabled r) eqn:Hd; [exact Hsame |].
      unfold App.resultsPage_handleUpdateSearch,
        ResultsPage.handleUpdateSearch.
      change (ResultsPage.handleUpdateSearch_filter (ResultsPage.newCriteria r))
        with (SearchPage.handleSearch_filter (ResultsPage.newCriteria r)).
      destruct (_ >? 0)%Z eqn:Hn.
      * apply commit_invariant; simpl.
        -- lia.
        -- now apply updateEnabled_nonEmpty.
        -- now apply totalImages_positive.
      * now apply keep_results_page.
    + (* Home *)
      unfold page_invariant, App.render, App.handleHome. simpl.
      rewrite Hp. simpl. repeat split. constructor.
Qed.

Lemma reachable_page_invariant (imgs : list ImageRecord) (st : App.State) :
  App.reachable imgs st -> page_invariant st.
Proof.
  induction 1 as [| e st Hreach IH].
  - unfold page_invariant. simpl. repeat split. constructor.
  - destruct (reachable_invariant imgs st Hreach) as [_ [[Hid _] Hpiv]].
    now apply step_page_invariant.
Qed.

(** ** What the results heading says *)

Lemma length_cons_positive {A : Type} (x : A) (l : list A) :
  (JS.length (x :: l) >? 0)%Z = true.
Proof. apply Z.gtb_lt. unfold JS.length. simpl List.length. lia. Qed.

Lemma displayCriteria_all_images (c : Criterion) :
  ResultsView.displayCriteria c = "All Images"
  <-> JS.truthy (architect c) = false /\ tags c = [].
Proof.
  unfold ResultsView.displayCriteria.
  destruct c as [ts arch]. simpl.
  destruct ts as [| t ts].
  - destruct arch as [[| ch a] |]; simpl; split; auto;
      try (intros [H _]; discriminate); discriminate.
  - rewrite length_cons_positive.
    destruct arch as [[| ch a] |]; simpl; split;
      try (intros [_ H]; discriminate); discriminate.
Qed.

Lemma displayCriteria_parts (c : Criterion) :
  let tagsPart :=
    String.append "Tags: ["
      (String.append
         (JSString.join ", " (map ResultsView.quoted (tags c))) "]") in
  (forall a, architect c = Some a -> a <> "" -> tags c = [] ->
     ResultsView.displayCriteria c
     = String.append "Architect: " (ResultsView.quoted a))
  /\ (JS.truthy (architect c) = false -> tags c <> [] ->
      ResultsView.displayCriteria c = tagsPart)
  /\ (forall a, architect c = Some a -> a <> "" -> tags c <> [] ->
        ResultsView.displayCriteria c
        = String.append
            (String.append "Architect: " (ResultsView.quoted a))
            (String.append " AND " tagsPart)).
Proof.
  unfold ResultsView.displayCriteria.
  destruct c as [ts arch]. simpl. repeat split.
  - intros a -> Ha ->. destruct a as [| ch a]; [congruence | reflexivity].
  - intros Harch Hts. destruct ts as [| t ts]; [congruence |].
    rewrite length_cons_positive.
    destruct arch as [[| ch a] |]; try discriminate Harch; reflexivity.
  - intros a -> Ha Hts. destruct ts as [| t ts]; [congruence |].
    rewrite length_cons_positive.
    destruct a as [| ch a]; [congruence | reflexivity].
Qed.

(** X5: the heading of the results page. It reads "All Images" exactly for
    a criterion with no tag and no architect (null or the empty string).
    Otherwise it names what is asked for: [Architect: "a"] for an architect
    alone, [Tags: ["t1", "t2"]] (the tags in their order, each in double
    quotes, separated by a comma and a space) for tags alone, and the two
    joined by [ AND ], the architect first, for both. It is never the empty
    string. *)
Theorem X5_displayCriteria :
  forall c : Criterion,
    let tagsPart :=
      String.append "Tags: ["
        (String.append
           (JSString.join ", " (map ResultsView.quoted (tags c))) "]") in
    (ResultsView.displayCriteria c = "All Images"
     <-> JS.truthy (architect c) = false /\ tags c = [])
    /\ ResultsView.displayCriteria c <> ""
    /\ (forall a, architect c = Some a -> a <> "" -> tags c = [] ->
          ResultsView.displayCriteria c
          = String.append "Architect: " (ResultsView.quoted a))
    /\ (JS.truthy (architect c) = false -> tags c <> [] ->
        ResultsView.displayCriteria c = tagsPart)
    /\ (forall a, architect c = Some a -> a <> "" -> tags c <> [] ->
          ResultsView.displayCriteria c
          = String.append
              (String.append "Architect: " (ResultsView.quoted a))
              (String.append " AND " tagsPart)).
Proof.
  intros c tagsPart. subst tagsPart.
  split; [apply displayCriteria_all_images |].
  split; [| apply displayCriteria_parts].
  unfold ResultsView.displayCriteria.
  destruct c as [ts arch]. simpl.
  destruct ts as [| t ts].
  - destruct arch as [[| ch a] |]; simpl; discriminate.
  - rewrite length_cons_positive.
    destruct arch as [[| ch a] |]; simpl; discriminate.
Qed.

Lemma X5_displayCriteria_witness :
  ResultsView.displayCriteria
    {| tags := ["Arch"; "Window"]; architect := Some "Foo" |}
  = String.append "Architect: "
      (String.append (ResultsView.quoted "Foo")
         (String.append " AND Tags: ["
            (String.append (ResultsView.quoted "Arch")
               (String.append ", "
                  (String.append (ResultsView.quoted "Window") "]"))))).
Proof.
  destruct (X5_displayCriteria
              {| tags := ["Arch"; "Window"]; architect := Some "Foo" |})
    as [_ [_ [_ [_ H]]]].
  rewrite (H "Foo" eq_refl); [reflexivity | discriminate | discriminate].
Defined.

(** ** Reachable states *)

(** X6: whenever the results page is shown, the active criterion matches at
    least one image, the cursor is within the result list and an image of
    the dataset that matches the criterion is under it: the "No images
    found for the selected criteria." branch of the results page is never
    taken. *)
Theorem X6_results_never_empty :
  forall (imgs : list ImageRecord) (st : App.State),
    App.reachable imgs st ->
    App.view st = results ->
    exists (r : ResultsPage.State) (img : ImageRecord),
      App.page st = App.ResultsPageM r
      /\ (0 <= ResultsPage.currentIndex r
          < ResultsPage.totalImages imgs (App.currentSearchCriteria st))%Z
      /\ shownImage st = Some img
      /\ In img imgs
      /\ ResultsPage.filteredImages_filter (App.currentSearchCriteria st) img
         = true.
Proof.
  intros imgs st Hreach Hview.
  pose proof (reachable_page_invariant imgs st Hreach) as Hinv.
  destruct (reachable_invariant imgs st Hreach) as [Himg _].
  unfold page_invariant, shownImage in *.
  destruct (App.page st) as [s | r].
  - destruct Hinv as [Hv _]. congruence.
  - destruct Hinv as [_ [_ [_ [_ Hi]]]]. rewrite Himg in *.
    destruct (index_in_range _ _ Hi) as [img Himgat].
    exists r, img. split; [reflexivity |]. split; [exact Hi |].
    assert (Hcur : ResultsPage.currentImage imgs
                     (App.currentSearchCriteria st) r = Some img).
    { unfold ResultsPage.currentImage.
      replace (_ >? 0)%Z with true by (symmetry; apply Z.gtb_lt; lia).
      exact Himgat. }
    split; [exact Hcur |].
    unfold JS.index in Himgat.
    destruct (_ <? 0)%Z; [discriminate |].
    apply nth_error_In, filter_In in Himgat. exact Himgat.
Qed.

Lemma X6_results_never_empty_witness :
  let st := run [App.SelectTag "Arch"; App.SearchImages; App.Next;
                 App.OtherTagClick "Arch"; App.ConfirmNewSearch; App.Previous]
                (App.loaded Scenario.dataset) in
  App.reachable Scenario.dataset st
  /\ App.view st = results
  /\ exists r img, App.page st = App.ResultsPageM r
                   /\ shownImage st = Some img
                   /\ In img Scenario.dataset.
Proof.
  intros st.
  assert (Hreach : App.reachable Scenario.dataset st)
    by (apply reachable_run; constructor).
  split; [exact Hreach |]. split; [reflexivity |].
  destruct (X6_results_never_empty Scenario.dataset st Hreach eq_refl)
    as [r [img [Hp [_ [Hs [Hin _]]]]]].
  exists r, img. auto.
Defined.

(** X7: the empty criterion is never the one shown. On the results view
    the active criterion has a tag or an architect, so its heading is never
    "All Images"; on the search view the active criterion is the empty
    one. *)
Theorem X7_active_criterion_by_view :
  forall (imgs : list ImageRecord) (st : App.State),
    App.reachable imgs st ->
    match App.view st with
    | results =>
        nonEmpty (App.currentSearchCriteria st)
        /\ ResultsView.displayCriteria (App.currentSearchCriteria st)
           <> "All Images"
    | search => App.currentSearchCriteria st = emptyCriterion
    end.
Proof.
  intros imgs st Hreach.
  pose proof (reachable_page_invariant imgs st Hreach) as Hinv.
  unfold page_invariant in Hinv.
  destruct (App.page st) as [s | r].
  - destruct Hinv as [-> [Hc _]]. exact Hc.
  - destruct Hinv as [-> [_ [Hne _]]]. split; [exact Hne |].
    intros H. apply displayCriteria_all_images in H. destruct H as [Ha Ht].
    destruct Hne as [Hne | Hne]; congruence.
Qed.

Lemma X7_active_criterion_by_view_witness :
  let st := run [App.SelectArchitect (Some "Bar"); App.SearchImages]
                (App.loaded Scenario.dataset) in
  App.view st = results
  /\ ResultsView.displayCriteria (App.currentSearchCriteria st)
     <> "All Images"
  /\ App.currentSearchCriteria (App.step App.Home st) = emptyCriterion.
Proof.
  intros st.
  assert (Hreach : App.reachable Scenario.dataset st)
    by (apply reachable_run; constructor).
  split; [reflexivity |]. split.
  - exact (proj2 (X7_active_criterion_by_view Scenario.dataset st Hreach)).
  - exact (X7_active_criterion_by_view Scenario.dataset _
             (App.reachable_step _ App.Home st Hreach)).
Defined.

(** ** Drafts, the pivot and its cancellation *)

Lemma render_settled_page (st : App.State) (p : App.Page) :
  settled st -> same_page_kind (App.page st) p ->
  App.render (App.setPage p st) = App.setPage p st.
Proof.
  intros Hst Hk. apply render_of_settled.
  destruct Hst as [Hid Hp]. unfold settled. simpl. split; [assumption |].
  destruct (App.page st) as [s | r], p as [s' | r']; simpl in Hk;
    try contradiction; auto.
  destruct Hp as [Hv He]. split; congruence.
Qed.

Lemma setPage_same (st : App.State) : App.setPage (App.page st) st = st.
Proof. now destruct st. Qed.

(** X8: only a search submit, a confirmed pivot, Update Search and Home can
    touch the active criterion. Every other event (editing either draft,
    clearing a chip, opening the sidebar, asking for or cancelling a pivot,
    Next, Previous) leaves the view, the active criterion, its identity and
    the dataset as they are; and apart from Next and Previous it leaves
    the cursor where it is. *)
Theorem X8_only_commits_change_criterion :
  forall (e : App.Event) (st : App.State),
    settled st ->
    installs e = false ->
    let st' := App.step e st in
    App.view st' = App.view st
    /\ App.currentSearchCriteria st' = App.currentSearchCriteria st
    /\ App.criteriaId st' = App.criteriaId st
    /\ App.images st' = App.images st
    /\ (e <> App.Next -> e <> App.Previous -> cursor st' = cursor st).
Proof.
  intros e st Hst He st'. subst st'. unfold App.step.
  assert (Hsame : App.render st = st) by now apply render_of_settled.
  assert (Hkeep : forall p, same_page_kind (App.page st) p ->
            App.render (App.setPage p st) = App.setPage p st)
    by (intros p; now apply render_settled_page).
  unfold App.dispatch, cursor.
  destruct (App.page st) as [s | r] eqn:Hp; destruct e; try discriminate He;
    rewrite ?Hsame, ?Hp; auto; repeat break_branch;
    rewrite ?Hsame, ?Hkeep, ?Hp by exact I; simpl; rewrite ?Hp; auto;
    try (rewrite Hkeep by reflexivity; simpl; repeat split; auto;
         intros; congruence).
Qed.

Lemma X8_only_commits_change_criterion_witness :
  let st := run [App.SelectTag "Arch"; App.SearchImages; App.Next]
                (App.loaded Scenario.dataset) in
  settled st
  /\ App.currentSearchCriteria
       (App.step (App.SidebarSelectTag "Window") st)
     = {| tags := ["Arch"]; architect := None |}
  /\ cursor (App.step (App.SidebarSelectTag "Window") st) = Some 1%Z.
Proof.
  intros st.
  assert (Hst : settled st).
  { unfold settled. simpl. split; [lia | split; reflexivity]. }
  split; [exact Hst |].
  destruct (X8_only_commits_change_criterion
              (App.SidebarSelectTag "Window") st Hst eq_refl)
    as [_ [Hc [_ [_ Hcur]]]].
  split; [exact Hc |]. apply Hcur; discriminate.
Defined.

Lemma step_OtherTagClick (st : App.State) (r : ResultsPage.State)
  (tag : string) :
  settled st ->
  App.page st = App.ResultsPageM r ->
  App.tagButtonShown tag r st = true ->
  App.step (App.OtherTagClick tag) st
  = App.setPage (App.ResultsPageM (ResultsPage.handleOtherTagClick tag r)) st.
Proof.
  intros Hst Hp Hshown. unfold App.step, App.dispatch. rewrite Hp, Hshown.
  apply render_settled_page; [assumption |]. now rewrite Hp.
Qed.

(** X9: a pivot never loses the image it starts from. When a non-empty tag
    under the displayed image is clicked and the pivot confirmed, the active
    criterion is that single tag, the cursor is back at 0, and the image
    that was displayed is among the new results. *)
Theorem X9_pivot_keeps_image :
  forall (st : App.State) (r : ResultsPage.State) (img : ImageRecord)
         (tag : string),
    settled st ->
    App.page st = App.ResultsPageM r ->
    shownImage st = Some img ->
    tags_include img tag = true ->
    JS.truthy_string tag = true ->
    let st' :=
      App.step App.ConfirmNewSearch (App.step (App.OtherTagClick tag) st) in
    App.currentSearchCriteria st' = {| tags := [tag]; architect := None |}
    /\ cursor st' = Some 0%Z
    /\ In img (ResultsPage.filteredImages (App.images st')
                                          (App.currentSearchCriteria st')).
Proof.
  intros st r img tag Hst Hp Hshown Htag Htruthy st'. subst st'.
  unfold shownImage in Hshown. rewrite Hp in Hshown.
  assert (Hbutton : App.tagButtonShown tag r st = true)
    by (unfold App.tagButtonShown; now rewrite Hshown).
  rewrite (step_OtherTagClick st r tag Hst Hp Hbutton).
  destruct Hst as [Hid Hpage]. rewrite Hp in Hpage. destruct Hpage as [Hv He].
  unfold App.step, App.dispatch, App.resultsPage_confirmNewSearch,
    ResultsPage.confirmNewSearch. simpl. rewrite Htruthy.
  unfold App.render, cursor, ResultsPage.update. simpl.
  destruct (Nat.eqb_spec (ResultsPage.effectCriteria r) (App.nextId st));
    [lia |].
  simpl. repeat split.
  apply filter_In. split.
  - now apply currentImage_In in Hshown.
  - unfold ResultsPage.filteredImages_filter, JS.every. simpl.
    now rewrite Htag.
Qed.

Lemma X9_pivot_keeps_image_witness :
  let st := run [App.SelectTag "Arch"; App.SearchImages; App.Next]
                (App.loaded Scenario.dataset) in
  let st' := App.step App.ConfirmNewSearch
               (App.step (App.OtherTagClick "Arch") st) in
  shownImage st = Some Scenario.B
  /\ In Scenario.B (ResultsPage.filteredImages (App.images st')
                                               (App.currentSearchCriteria st'))
  /\ shownImage st' = Some Scenario.A.
Proof.
  intros st st'. split; [reflexivity |]. split; [| reflexivity].
  assert (Hst : settled st).
  { unfold settled. simpl. split; [lia | split; reflexivity]. }
  destruct (X9_pivot_keeps_image st _ Scenario.B "Arch" Hst eq_refl eq_refl
              eq_refl eq_refl) as [_ [_ H]].
  exact H.
Defined.

(** X10: Cancel undoes the request for a pivot. From a state with no
    confirmation pending, clicking any tag and then cancelling gives back
    the very same state: criterion, cursor, sidebar draft and view. *)
Theorem X10_cancel_restores :
  forall (st : App.State) (r : ResultsPage.State) (tag : string),
    settled st ->
    App.page st = App.ResultsPageM r ->
    ResultsPage.showConfirmModal r = false ->
    ResultsPage.tagToSearch r = None ->
    App.step App.CancelNewSearch (App.step (App.OtherTagClick tag) st) = st.
Proof.
  intros st r tag Hst Hp Hm Ht.
  destruct (App.tagButtonShown tag r st) eqn:Hshown.
  - rewrite (step_OtherTagClick st r tag Hst Hp Hshown).
    unfold App.step, App.dispatch. simpl.
    assert (Hr : ResultsPage.cancelNewSearch
                   (ResultsPage.handleOtherTagClick tag r) = r).
    { unfold ResultsPage.cancelNewSearch, ResultsPage.handleOtherTagClick,
        ResultsPage.setModal. destruct r; simpl in *. now subst. }
    rewrite Hr.
    replace (App.setPage (App.ResultsPageM r)
               (App.setPage
                  (App.ResultsPageM (ResultsPage.handleOtherTagClick tag r))
                  st))
      with st.
    + now apply render_of_settled.
    + destruct st; simpl in *. now subst.
  - assert (H1 : App.step (App.OtherTagClick tag) st = st).
    { unfold App.step, App.dispatch. rewrite Hp, Hshown.
      now apply render_of_settled. }
    rewrite H1. unfold App.step, App.dispatch. rewrite Hp, Hm.
    now apply render_of_settled.
Qed.

Lemma X10_cancel_restores_witness :
  let st := run [App.SelectTag "Arch"; App.SearchImages; App.Next]
                (App.loaded Scenario.dataset) in
  localPending (App.step (App.OtherTagClick "Arch") st) = Some "Arch"
  /\ App.step App.CancelNewSearch (App.step (App.OtherTagClick "Arch") st)
     = st.
Proof.
  intros st. split; [reflexivity |].
  assert (Hst : settled st).
  { unfold settled. simpl. split; [lia | split; reflexivity]. }
  exact (X10_cancel_restores st _ "Arch" Hst eq_refl eq_refl eq_refl).
Defined.

(** ** Objects as maps *)

Lemma object_get_set_same {V : Type} (o : JSObject.t V) (key : string) (v : V) :
  JSObject.get (JSObject.set o key v) key = Some v.
Proof.
  induction o as [| [k w] o IH]; simpl.
  - now rewrite String.eqb_refl.
  - destruct (String.eqb k key) eqn:E; simpl; rewrite E; auto.
Qed.

Lemma object_get_set_other {V : Type} (o : JSObject.t V) (key k : string)
  (v : V) :
  k <> key -> JSObject.get (JSObject.set o key v) k = JSObject.get o k.
Proof.
  intros Hne. induction o as [| [k' w] o IH]; simpl.
  - apply String.eqb_neq in Hne. rewrite String.eqb_sym in Hne.
    now rewrite Hne.
  - destruct (String.eqb_spec k' key) as [-> | Hk]; simpl.
    + apply not_eq_sym, String.eqb_neq in Hne. now rewrite Hne.
    + now rewrite IH.
Qed.

Lemma object_keys_set {V : Type} (o : JSObject.t V) (key : string) (v : V) :
  JSObject.keys (JSObject.set o key v)
  = if existsb (String.eqb key) (JSObject.keys o) then JSObject.keys o
    else JSObject.keys o ++ [key].
Proof.
  unfold JSObject.keys.
  induction o as [| [k w] o IH]; simpl; auto.
  rewrite (String.eqb_sym key k).
  destruct (String.eqb k key) eqn:E; simpl; auto.
  rewrite IH. now destruct (existsb _ _).
Qed.

Lemma object_set_wf {V : Type} (o : JSObject.t V) (key : string) (v : V) :
  JSObject.wf o -> JSObject.wf (JSObject.set o key v).
Proof.
  unfold JSObject.wf. intros H. rewrite object_keys_set.
  destruct (existsb _ _) eqn:E; auto.
  apply NoDup_app; auto.
  - constructor; [intros [] | constructor].
  - intros a Ha [Hb | []]. subst a.
    assert (Hex : existsb (String.eqb key) (JSObject.keys o) = true).
    { apply existsb_exists. exists key. split; [assumption |].
      apply String.eqb_refl. }
    congruence.
Qed.

Lemma object_get_delete_same {V : Type} (o : JSObject.t V) (key : string) :
  JSObject.get (JSObject.delete o key) key = None.
Proof.
  induction o as [| [k w] o IH]; simpl; auto.
  destruct (String.eqb k key) eqn:E; simpl; auto. now rewrite E.
Qed.

Lemma object_get_delete_other {V : Type} (o : JSObject.t V) (key k : string) :
  k <> key -> JSObject.get (JSObject.delete o key) k = JSObject.get o k.
Proof.
  intros Hne. induction o as [| [k' w] o IH]; simpl; auto.
  destruct (String.eqb_spec k' key) as [-> | Hk]; simpl.
  - apply not_eq_sym, String.eqb_neq in Hne. now rewrite Hne.
  - now rewrite IH.
Qed.

Lemma object_delete_wf {V : Type} (o : JSObject.t V) (key : string) :
  JSObject.wf o -> JSObject.wf (JSObject.delete o key).
Proof.
  unfold JSObject.wf, JSObject.keys, JSObject.delete.
  induction o as [| [k w] o IH]; simpl; intros H; auto.
  inversion H as [| ? ? Hk Ho]; subst.
  destruct (String.eqb k key); simpl; auto.
  constructor; auto.
  intros Hin. apply Hk. apply in_map_iff in Hin.
  destruct Hin as [[k' w'] [Hf Hin]]. apply filter_In in Hin.
  apply in_map_iff. exists (k', w'). tauto.
Qed.

Lemma object_delete_absent {V : Type} (o : JSObject.t V) (key : string) :
  JSObject.get o key = None -> JSObject.delete o key = o.
Proof.
  unfold JSObject.delete. induction o as [| [k w] o IH]; simpl; auto.
  destruct (String.eqb k key); [discriminate |].
  intros H. simpl. f_equal. now apply IH.
Qed.

Lemma object_delete_set_fresh {V : Type} (o : JSObject.t V) (key : string)
  (v : V) :
  JSObject.get o key = None ->
  JSObject.delete (JSObject.set o key v) key = o.
Proof.
  unfold JSObject.delete. induction o as [| [k w] o IH]; simpl.
  - now rewrite String.eqb_refl.
  - destruct (String.eqb k key) eqn:E; [discriminate |].
    intros H. simpl. rewrite E. simpl. f_equal. now apply IH.
Qed.

Lemma object_get_In {V : Type} (o : JSObject.t V) (key : string) (v : V) :
  JSObject.wf o -> (JSObject.get o key = Some v <-> In (key, v) o).
Proof.
  unfold JSObject.wf, JSObject.keys.
  induction o as [| [k w] o IH]; simpl; intros Hwf.
  - split; [discriminate | contradiction].
  - inversion Hwf as [| ? ? Hk Ho]; subst.
    destruct (String.eqb_spec k key) as [-> | Hne].
    + split.
      * intros E. injection E as ->. now left.
      * intros [E | Hin]; [now injection E as -> |].
        exfalso. apply Hk. apply in_map_iff. now exists (key, v).
    + rewrite (IH Ho). split; [now right |].
      intros [E | Hin]; [congruence | assumption].
Qed.

(** ** The quick search *)

Lemma slot_get_eq (slotValues : FilterSentence.SlotValues) (key : string) :
  FilterSentence.get slotValues key = JSObject.get slotValues key.
Proof.
  induction slotValues as [| [k v] o IH]; simpl; auto.
  now rewrite IH.
Qed.

(** X11: the slot state of the quick search behaves as a map. Choosing a
    value makes it the slot's value and clearing a slot empties it, neither
    touches another slot, and no key is ever held twice; clearing a slot
    that was empty before it was filled gives back the earlier state. *)
Theorem X11_slot_state :
  forall (prev : FilterSentence.SlotValues) (key value : string),
    JSObject.wf prev ->
    let selected := Slots.handleSlotSelect key value prev in
    let cleared := Slots.handleSlotClear key prev in
    FilterSentence.get selected key = Some value
    /\ FilterSentence.get cleared key = None
    /\ (forall k, k <> key ->
                  FilterSentence.get selected k = FilterSentence.get prev k
                  /\ FilterSentence.get cleared k = FilterSentence.get prev k)
    /\ JSObject.wf selected
    /\ JSObject.wf cleared
    /\ (FilterSentence.get prev key = None ->
        Slots.handleSlotClear key selected = prev).
Proof.
  intros prev key value Hwf selected cleared. subst selected cleared.
  unfold Slots.handleSlotSelect, Slots.handleSlotClear.
  rewrite !slot_get_eq.
  split; [apply object_get_set_same |].
  split; [apply object_get_delete_same |].
  split; [intros k Hk; rewrite !slot_get_eq; split;
          [now apply object_get_set_other | now apply object_get_delete_other]
         |].
  split; [now apply object_set_wf |].
  split; [now apply object_delete_wf |].
  apply object_delete_set_fresh.
Qed.

Lemma X11_slot_state_witness :
  let prev := [("setting", "Prospect")] in
  let selected := Slots.handleSlotSelect "architect" "Foo" prev in
  selected = [("setting", "Prospect"); ("architect", "Foo")]
  /\ FilterSentence.get selected "architect" = Some "Foo"
  /\ Slots.handleSlotClear "architect" selected = prev.
Proof.
  intros prev selected. split; [reflexivity |].
  assert (Hwf : JSObject.wf prev).
  { repeat constructor. intros []. }
  destruct (X11_slot_state prev "architect" "Foo" Hwf)
    as [H1 [_ [_ [_ [_ H6]]]]].
  split; [exact H1 | apply H6; reflexivity].
Defined.

(** X12: what the quick search submits. It submits nothing when no tag
    slot is filled and the architect slot is empty or holds the empty
    string; otherwise the criterion's tags are exactly the values of the
    filled slots other than the architect's, its architect is the architect
    slot's value (null for the empty string), and it is never the empty
    criterion. *)
Theorem X12_quick_search_criterion :
  forall (slotValues : FilterSentence.SlotValues),
    JSObject.wf slotValues ->
    match FilterSentence.handleSearch slotValues with
    | Some c =>
        (forall tag,
            In tag (tags c)
            <-> exists key, key <> "architect"
                            /\ FilterSentence.get slotValues key = Some tag)
        /\ architect c
           = JS.or_null (FilterSentence.get slotValues "architect")
        /\ architect c <> Some ""
        /\ nonEmpty c
    | None =>
        (forall key, key <> "architect" ->
                     FilterSentence.get slotValues key = None)
        /\ JS.truthy (FilterSentence.get slotValues "architect") = false
    end.
Proof.
  intros slotValues Hwf.
  assert (Htags : forall tag,
             In tag (map snd
                       (filter (fun entry =>
                                  negb (String.eqb (fst entry) "architect"))
                               slotValues))
             <-> exists key, key <> "architect"
                             /\ FilterSentence.get slotValues key = Some tag).
  { intros tag. rewrite in_map_iff. split.
    - intros [[k v] [Hv Hin]]. simpl in Hv. subst v.
      apply filter_In in Hin. destruct Hin as [Hin Hk]. simpl in Hk.
      exists k. split.
      + intros ->. now rewrite String.eqb_refl in Hk.
      + rewrite slot_get_eq. now apply object_get_In.
    - intros [key [Hne Hget]]. exists (key, tag). split; [reflexivity |].
      rewrite slot_get_eq in Hget.
      apply filter_In. split; [now apply object_get_In |].
      simpl. apply String.eqb_neq in Hne. now rewrite Hne. }
  destruct (FilterSentence.handleSearch slotValues) as [c |] eqn:Hq.
  - destruct (quickSearch_nonEmpty _ _ Hq) as [Hne Harch].
    unfold FilterSentence.handleSearch in Hq.
    destruct (_ || _); [| discriminate]. injection Hq as <-. simpl.
    repeat split; auto; apply Htags.
  - unfold FilterSentence.handleSearch in Hq.
    destruct (_ || _) eqn:Hor; [discriminate |].
    apply orb_false_iff in Hor. destruct Hor as [Hlen Htr]. split.
    + intros key Hne.
      destruct (FilterSentence.get slotValues key) as [tag |] eqn:Hget; auto.
      assert (Hin : In tag (map snd
                       (filter (fun entry =>
                                  negb (String.eqb (fst entry) "architect"))
                               slotValues)))
        by (apply Htags; eauto).
      destruct (map snd _); [destruct Hin |].
      now rewrite length_cons_positive in Hlen.
    + unfold JS.or_null in Htr.
      destruct (JS.truthy (FilterSentence.get slotValues "architect")) eqn:E;
        [congruence | reflexivity].
Qed.

Lemma X12_quick_search_criterion_witness :
  FilterSentence.handleSearch
    [("style", "Brutalism"); ("architect", "Foo"); ("setting", "Prospect")]
  = Some {| tags := ["Brutalism"; "Prospect"]; architect := Some "Foo" |}
  /\ nonEmpty {| tags := ["Brutalism"; "Prospect"]; architect := Some "Foo" |}
  /\ FilterSentence.handleSearch [("architect", "")] = None.
Proof.
  split; [reflexivity |]. split; [| reflexivity].
  assert (Hwf : JSObject.wf [("style", "Brutalism"); ("architect", "Foo");
                             ("setting", "Prospect")]).
  { repeat constructor; simpl; intuition discriminate. }
  pose proof (X12_quick_search_criterion _ Hwf) as H. simpl in H.
  exact (proj2 (proj2 (proj2 H))).
Defined.

(** ** Slot options from the taxonomy *)

Lemma find_snoc {A : Type} (p : A -> bool) (l : list A) (x : A) :
  find p (l ++ [x])
  = match find p l with
    | Some y => Some y
    | None => if p x then Some x else None
    end.
Proof.
  induction l as [| y l IH]; simpl; auto.
  now destruct (p y).
Qed.

Lemma allTags_fold (subs : list Taxonomy.SubCategory) :
  forall (o : JSObject.t (list string)) (name : string),
    JSObject.get
      (fold_left (fun tags subCat =>
                    JSObject.set tags (Taxonomy.name subCat)
                                 (Taxonomy.tags subCat)) subs o) name
    = match find (fun subCat => String.eqb (Taxonomy.name subCat) name)
                 (rev subs) with
      | Some subCat => Some (Taxonomy.tags subCat)
      | None => JSObject.get o name
      end.
Proof.
  induction subs as [| s subs IH]; intros o name; simpl; auto.
  rewrite IH, find_snoc.
  destruct (find _ (rev subs)); auto.
  destruct (String.eqb_spec (Taxonomy.name s) name) as [<- | Hne].
  - apply object_get_set_same.
  - apply object_get_set_other. congruence.
Qed.

Lemma allTags_flat (taxonomy : Taxonomy.t) :
  forall o : JSObject.t (list string),
    fold_left
      (fun tags cat =>
         fold_left
           (fun tags subCat =>
              JSObject.set tags (Taxonomy.name subCat) (Taxonomy.tags subCat))
           (Taxonomy.subCategories cat) tags)
      taxonomy o
    = fold_left (fun tags subCat =>
                   JSObject.set tags (Taxonomy.name subCat)
                                (Taxonomy.tags subCat))
                (flat_map Taxonomy.subCategories taxonomy) o.
Proof.
  induction taxonomy as [| cat taxonomy IH]; intros o; simpl; auto.
  now rewrite fold_left_app, IH.
Qed.

(** X13: the options of a tag slot are looked up by subcategory name over
    the whole taxonomy. A name that no subcategory bears gives no options
    (an empty list, not a failure); a name borne by several subcategories,
    in the same category or not, gives the tags of the last one in document
    order. *)
Theorem X13_slot_options :
  forall (taxonomy : Taxonomy.t) (name : string),
    Slots.options taxonomy name
    = match find (fun subCat => String.eqb (Taxonomy.name subCat) name)
                 (rev (flat_map Taxonomy.subCategories taxonomy)) with
      | Some subCat => Taxonomy.tags subCat
      | None => []
      end.
Proof.
  intros taxonomy name. unfold Slots.options, Slots.allTags.
  rewrite allTags_flat, allTags_fold.
  now destruct (find _ _).
Qed.

(** ** Expanding the taxonomy browser *)

Lemma isExpanded_set_same (o : TaxonomyBrowser.Expanded) (key : string)
  (b : bool) :
  TaxonomyBrowser.isExpanded (JSObject.set o key b) key = b.
Proof.
  unfold TaxonomyBrowser.isExpanded. now rewrite object_get_set_same.
Qed.

Lemma isExpanded_set_other (o : TaxonomyBrowser.Expanded) (key k : string)
  (b : bool) :
  k <> key ->
  TaxonomyBrowser.isExpanded (JSObject.set o key b) k
  = TaxonomyBrowser.isExpanded o k.
Proof.
  intros H. unfold TaxonomyBrowser.isExpanded.
  now rewrite object_get_set_other.
Qed.

(** X14: a click on a category or subcategory header flips its own
    expansion and no other, and a second click restores what was expanded,
    for every key. A key never clicked is collapsed, unless it is a property
    name inherited from [Object.prototype] (a category named "constructor",
    say): that one is drawn expanded from the start, and its first click
    collapses it. *)
Theorem X14_expand_toggle :
  forall (prev : TaxonomyBrowser.Expanded) (cat sub k : string),
    let once := TaxonomyBrowser.toggleCategory cat prev in
    let twice := TaxonomyBrowser.toggleCategory cat once in
    let key := TaxonomyBrowser.subCategoryKey cat sub in
    let sonce := TaxonomyBrowser.toggleSubCategory cat sub prev in
    let stwice := TaxonomyBrowser.toggleSubCategory cat sub sonce in
    TaxonomyBrowser.isExpanded once cat
    = negb (TaxonomyBrowser.isExpanded prev cat)
    /\ TaxonomyBrowser.isExpanded twice k = TaxonomyBrowser.isExpanded prev k
    /\ TaxonomyBrowser.isExpanded sonce key
       = negb (TaxonomyBrowser.isExpanded prev key)
    /\ TaxonomyBrowser.isExpanded stwice k = TaxonomyBrowser.isExpanded prev k
    /\ (k <> cat ->
        TaxonomyBrowser.isExpanded once k = TaxonomyBrowser.isExpanded prev k)
    /\ (k <> key ->
        TaxonomyBrowser.isExpanded sonce k = TaxonomyBrowser.isExpanded prev k)
    /\ TaxonomyBrowser.isExpanded [] k = JSObject.inherited k
    /\ (JSObject.inherited k = false ->
        TaxonomyBrowser.isExpanded [] k = false
        /\ TaxonomyBrowser.isExpanded (TaxonomyBrowser.toggleCategory k []) k
           = true)
    /\ (JSObject.inherited k = true ->
        TaxonomyBrowser.isExpanded [] k = true
        /\ TaxonomyBrowser.isExpanded (TaxonomyBrowser.toggleCategory k []) k
           = false)
    /\ JSObject.inherited "constructor" = true.
Proof.
  intros prev cat sub k once twice key sonce stwice.
  subst once twice sonce stwice.
  unfold TaxonomyBrowser.toggleSubCategory. fold key.
  unfold TaxonomyBrowser.toggleCategory.
  assert (Htwice : forall (o : TaxonomyBrowser.Expanded) (n : string),
            TaxonomyBrowser.isExpanded
              (JSObject.set
                 (JSObject.set o n (negb (TaxonomyBrowser.isExpanded o n))) n
                 (negb (TaxonomyBrowser.isExpanded
                          (JSObject.set o n
                             (negb (TaxonomyBrowser.isExpanded o n))) n))) k
            = TaxonomyBrowser.isExpanded o k).
  { intros o n. destruct (String.eqb_spec k n) as [-> | Hne].
    - rewrite !isExpanded_set_same. apply negb_involutive.
    - now rewrite !isExpanded_set_other. }
  split; [apply isExpanded_set_same |].
  split; [apply Htwice |].
  split; [apply isExpanded_set_same |].
  split; [apply Htwice |].
  split; [apply isExpanded_set_other |].
  split; [apply isExpanded_set_other |].
  split; [reflexivity |].
  split; [| split; [| reflexivity]].
  - intros Hk. split; [exact Hk |].
    rewrite isExpanded_set_same. unfold TaxonomyBrowser.isExpanded. simpl.
    now rewrite Hk.
  - intros Hk. split; [exact Hk |].
    rewrite isExpanded_set_same. unfold TaxonomyBrowser.isExpanded. simpl.
    now rewrite Hk.
Qed.

Lemma X14_expand_toggle_witness :
  let prev := TaxonomyBrowser.toggleCategory "Material Properties" [] in
  TaxonomyBrowser.isExpanded prev "Material Properties" = true
  /\ TaxonomyBrowser.isExpanded
       (TaxonomyBrowser.toggleCategory "Material Properties" prev)
       "Material Properties" = false
  /\ TaxonomyBrowser.isExpanded
       (TaxonomyBrowser.toggleCategory "Acoustics" prev)
       "Material Properties" = true
  /\ TaxonomyBrowser.isExpanded [] "constructor" = true
  /\ TaxonomyBrowser.isExpanded
       (TaxonomyBrowser.toggleCategory "constructor" []) "constructor"
     = false.
Proof.
  intros prev. split; [reflexivity |].
  destruct (X14_expand_toggle prev "Material Properties" "Type"
              "Material Properties") as [H1 _].
  destruct (X14_expand_toggle prev "Acoustics" "Type" "Material Properties")
    as [_ [_ [_ [_ [H5 _]]]]].
  destruct (X14_expand_toggle [] "constructor" "Type" "constructor")
    as [_ [_ [_ [_ [_ [_ [_ [_ [H9 _]]]]]]]]].
  split; [exact H1 |]. split; [apply H5; discriminate |].
  apply H9. reflexivity.
Defined.

Lemma append_assoc (a b c : string) :
  String.append (String.append a b) c = String.append a (String.append b c).
Proof.
  induction a as [| ch a IH]; simpl; auto. now rewrite IH.
Qed.

(** X15: the expansion key of a subcategory is the category name, a hyphen
    and the subcategory name, so it does not tell where the category name
    ends: the subcategory [t] of a category named [c-s] and the subcategory
    [s-t] of the category [c] share one key, and a click on either header
    expands or collapses both. *)
Theorem X15_subcategory_key_shared :
  forall (c s t : string) (prev : TaxonomyBrowser.Expanded),
    let cs := String.append c (String.append "-" s) in
    let st := String.append s (String.append "-" t) in
    TaxonomyBrowser.subCategoryKey cs t = TaxonomyBrowser.subCategoryKey c st
    /\ TaxonomyBrowser.toggleSubCategory cs t prev
       = TaxonomyBrowser.toggleSubCategory c st prev
    /\ TaxonomyBrowser.isExpanded
         (TaxonomyBrowser.toggleSubCategory cs t prev)
         (TaxonomyBrowser.subCategoryKey c st)
       = negb (TaxonomyBrowser.isExpanded prev
                 (TaxonomyBrowser.subCategoryKey c st)).
Proof.
  intros c s t prev cs st. subst cs st.
  assert (Hkey : TaxonomyBrowser.subCategoryKey
                   (String.append c (String.append "-" s)) t
                 = TaxonomyBrowser.subCategoryKey c
                     (String.append s (String.append "-" t))).
  { unfold TaxonomyBrowser.subCategoryKey.
    rewrite append_assoc. reflexivity. }
  split; [exact Hkey |].
  unfold TaxonomyBrowser.toggleSubCategory. rewrite Hkey.
  split; [reflexivity | apply isExpanded_set_same].
Qed.

(** ** Beside the image: link text and loading state *)

Lemma lastIndexOf_bound (s : string) (c : ascii) :
  (-1 <= JSString.lastIndexOf s c)%Z.
Proof.
  induction s as [| a s IH]; simpl; [lia |].
  destruct (0 <=? JSString.lastIndexOf s c)%Z eqn:E.
  - apply Z.leb_le in E. lia.
  - destruct (Ascii.eqb a c); lia.
Qed.

Lemma lastIndexOf_absent (s : string) (c : ascii) :
  (JSString.lastIndexOf s c < 0)%Z <-> JSString.contains s c = false.
Proof.
  induction s as [| a s IH]; simpl; [split; [reflexivity | lia] |].
  pose proof (lastIndexOf_bound s c) as Hb.
  destruct (0 <=? JSString.lastIndexOf s c)%Z eqn:E.
  - apply Z.leb_le in E. split; [lia |].
    intros H. apply orb_false_iff in H. destruct H as [_ H].
    apply IH in H. lia.
  - apply Z.leb_gt in E. apply IH in E. rewrite E.
    destruct (Ascii.eqb a c); simpl; split; auto; try lia; discriminate.
Qed.

Lemma lastIndexOf_split (s : string) (c : ascii) :
  (0 <= JSString.lastIndexOf s c)%Z ->
  exists p q,
    s = String.append p (String c q)
    /\ Z.of_nat (String.length p) = JSString.lastIndexOf s c
    /\ JSString.contains q c = false
    /\ JSString.substring s (JSString.lastIndexOf s c + 1) = q.
Proof.
  unfold JSString.substring.
  induction s as [| a s IH]; simpl; [lia |].
  destruct (0 <=? JSString.lastIndexOf s c)%Z eqn:E.
  - apply Z.leb_le in E. intros _.
    destruct (IH E) as [p [q [Hs [Hl [Hq Hd]]]]].
    exists (String a p), q. simpl. rewrite <- Hs.
    split; [reflexivity |]. split; [lia |]. split; [assumption |].
    replace (Z.to_nat (JSString.lastIndexOf s c + 1 + 1))
      with (S (Z.to_nat (JSString.lastIndexOf s c + 1))) by lia.
    simpl. exact Hd.
  - apply Z.leb_gt in E.
    destruct (Ascii.eqb_spec a c) as [-> | Hne]; [| lia].
    intros _. exists EmptyString, s. simpl.
    split; [reflexivity |]. split; [reflexivity |].
    split; [now apply lastIndexOf_absent | reflexivity].
Qed.

(** X16: the text of the source link is the part of the image URL after
    its last slash: it contains no slash and the URL is a prefix that is
    empty or ends with a slash, followed by it. A URL without a slash is
    shown whole, a URL ending with a slash gives an empty text, and the
    empty URL gives "Source Link". *)
Theorem X16_link_text :
  forall img : ImageRecord,
    let url := imageUrl img in
    let text := ResultsView.linkText img in
    (url = "" -> text = "Source Link")
    /\ (url <> "" ->
        JSString.contains text "/" = false
        /\ exists prefix,
            url = String.append prefix text
            /\ (prefix = ""
                \/ exists p, prefix = String.append p "/"))
    /\ (url <> "" -> JSString.contains url "/" = false -> text = url).
Proof.
  intros img url text. subst url text. unfold ResultsView.linkText.
  destruct (imageUrl img) as [| a u] eqn:Hu; simpl JS.truthy_string; cbv iota.
  - split; [reflexivity |]. split; intros H; congruence.
  - split; [discriminate |]. split.
    + intros _.
      destruct (Z.le_gt_cases 0 (JSString.lastIndexOf (String a u) "/"))
        as [Hpos | Hneg].
      * destruct (lastIndexOf_split _ _ Hpos) as [p [q [Hs [_ [Hq Hd]]]]].
        rewrite Hd. split; [exact Hq |].
        exists (String.append p "/"). split; [| right; now exists p].
        rewrite Hs at 1. now rewrite append_assoc.
      * pose proof (lastIndexOf_bound (String a u) "/") as Hb.
        replace (JSString.lastIndexOf (String a u) "/") with (-1)%Z by lia.
        split; [now apply lastIndexOf_absent |].
        exists "". split; [reflexivity | now left].
    + intros _ Hnone. apply lastIndexOf_absent in Hnone.
      pose proof (lastIndexOf_bound (String a u) "/") as Hb.
      now replace (JSString.lastIndexOf (String a u) "/") with (-1)%Z by lia.
Qed.

Lemma X16_link_text_witness :
  let img := {| imageUrl := "https://example.org/plates/villa.jpg";
                img_architect := None;
                img_tags := None |} in
  ResultsView.linkText img = "villa.jpg"
  /\ JSString.contains (ResultsView.linkText img) "/" = false.
Proof.
  intros img. split; [reflexivity |].
  destruct (X16_link_text img) as [_ [H _]].
  apply H. discriminate.
Defined.

(** X17: the image frame always shows exactly one thing: the loading
    placeholder, the failure notice or the image. A new image starts as
    loading; once loaded it is visible; a failed load shows the notice,
    and the notice stays until another image is displayed. *)
Theorem X17_image_frame :
  forall (s : ResultsView.ImageStatus) (img : ImageRecord),
    let shown s :=
      (ResultsView.loadingShown s, ResultsView.errorShown s,
       ResultsView.imageVisible s) in
    (shown s = (true, false, false)
     \/ shown s = (false, true, false)
     \/ shown s = (false, false, true))
    /\ shown ResultsView.initialStatus = (true, false, false)
    /\ shown (ResultsView.currentImage_effect (Some img) s)
       = (true, false, false)
    /\ shown (ResultsView.handleImageLoad
                (ResultsView.currentImage_effect (Some img) s))
       = (false, false, true)
    /\ shown (ResultsView.handleImageError s) = (false, true, false)
    /\ shown (ResultsView.handleImageLoad (ResultsView.handleImageError s))
       = (false, true, false)
    /\ ResultsView.currentImage_effect None s = s.
Proof.
  intros [[|] [|]] img shown; subst shown; cbv; auto 10.
Qed.

(** ** Loading the dataset *)

(** X18: how the one fetch ends. The pages are rendered exactly when the
    response is ok and its JSON carries both [taxonomy] and [images], and
    then [appData] is that document (an empty image list included). In every
    other case (rejected fetch, HTTP error, body that is not JSON, missing
    field) the error screen shows "Failed to load data. " followed by the
    cause and [appData] stays empty; a response that is not ok is reported
    by its status whatever its body. The loading screen is gone either
    way. *)
Theorem X18_load_outcome :
  forall f : Loader.Fetched,
    let s := Loader.load f Loader.initial in
    Loader.loading s = false
    /\ (Loader.renderView s = Loader.Pages
        <-> exists status taxonomy images,
            f = Loader.Response true status
                  (Loader.Data (Some taxonomy) (Some images))
            /\ Loader.appData_taxonomy s = taxonomy
            /\ Loader.appData_images s = images)
    /\ (Loader.renderView s <> Loader.Pages ->
        exists cause,
          Loader.renderView s
          = Loader.ErrorScreen (String.append "Failed to load data. " cause)
          /\ Loader.appData_taxonomy s = []
          /\ Loader.appData_images s = [])
    /\ (forall status body,
           f = Loader.Response false status body ->
           Loader.renderView s
           = Loader.ErrorScreen
               (String.append "Failed to load data. HTTP error! status: "
                              status)).
Proof.
  intros f s. subst s.
  assert (Hfail : forall cause,
            (forall status taxonomy images,
                f <> Loader.Response true status
                       (Loader.Data (Some taxonomy) (Some images))) ->
            Loader.load f Loader.initial = Loader.failed cause Loader.initial ->
            (forall status body, f = Loader.Response false status body ->
               cause = String.append "HTTP error! status: " status) ->
            Loader.loading (Loader.load f Loader.initial) = false
            /\ (Loader.renderView (Loader.load f Loader.initial) = Loader.Pages
                <-> exists status taxonomy images,
                    f = Loader.Response true status
                          (Loader.Data (Some taxonomy) (Some images))
                    /\ Loader.appData_taxonomy (Loader.load f Loader.initial)
                       = taxonomy
                    /\ Loader.appData_images (Loader.load f Loader.initial)
                       = images)
            /\ (Loader.renderView (Loader.load f Loader.initial)
                <> Loader.Pages ->
                exists cause,
                  Loader.renderView (Loader.load f Loader.initial)
                  = Loader.ErrorScreen
                      (String.append "Failed to load data. " cause)
                  /\ Loader.appData_taxonomy (Loader.load f Loader.initial)
                     = []
                  /\ Loader.appData_images (Loader.load f Loader.initial)
                     = [])
            /\ (forall status body,
                   f = Loader.Response false status body ->
                   Loader.renderView (Loader.load f Loader.initial)
                   = Loader.ErrorScreen
                       (String.append
                          "Failed to load data. HTTP error! status: "
                          status))).
  { intros cause Hnot Hload Hstatus. rewrite Hload.
    split; [reflexivity |]. split; [split |].
    - intros H. discriminate H.
    - intros [status [t [i [H _]]]]. exfalso. exact (Hnot _ _ _ H).
    - split.
      + intros _. exists cause. repeat split.
      + intros status body H. rewrite (Hstatus status body H). reflexivity. }
  destruct f as [message | [|] status [message | [t |] [i |]]].
  - apply (Hfail message); [discriminate | reflexivity | discriminate].
  - apply (Hfail message); [discriminate | reflexivity | discriminate].
  - clear Hfail. split; [reflexivity |]. split; [split |].
    + intros _. exists status, t, i. repeat split.
    + reflexivity.
    + split; [intros H; now contradiction H |].
      intros status' body H. discriminate H.
  - apply (Hfail "JSON data missing 'taxonomy' or 'images'.");
      [discriminate | reflexivity | discriminate].
  - apply (Hfail "JSON data missing 'taxonomy' or 'images'.");
      [discriminate | reflexivity | discriminate].
  - apply (Hfail "JSON data missing 'taxonomy' or 'images'.");
      [discriminate | reflexivity | discriminate].
  - apply (Hfail (String.append "HTTP error! status: " status));
      [discriminate | reflexivity |].
    intros status' body H. now injection H as <- _.
  - apply (Hfail (String.append "HTTP error! status: " status));
      [discriminate | reflexivity |].
    intros status' body H. now injection H as <- _.
  - apply (Hfail (String.append "HTTP error! status: " status));
      [discriminate | reflexivity |].
    intros status' body H. now injection H as <- _.
  - apply (Hfail (String.append "HTTP error! status: " status));
      [discriminate | reflexivity |].
    intros status' body H. now injection H as <- _.
  - apply (Hfail (String.append "HTTP error! status: " status));
      [discriminate | reflexivity |].
    intros status' body H. now injection H as <- _.
Qed.

Lemma X18_load_outcome_witness :
  Loader.renderView
    (Loader.load (Loader.Response true "200"
                    (Loader.Data (Some []) (Some Scenario.dataset)))
                 Loader.initial) = Loader.Pages
  /\ Loader.renderView
       (Loader.load (Loader.Response true "200" (Loader.Data (Some []) None))
                    Loader.initial)
     = Loader.ErrorScreen
         "Failed to load data. JSON data missing 'taxonomy' or 'images'.".
Proof.
  split.
  - apply (X18_load_outcome (Loader.Response true "200"
             (Loader.Data (Some []) (Some Scenario.dataset)))).
    exists "200", [], Scenario.dataset. repeat split.
  - reflexivity.
Defined.

(** ** Chips and text filters *)

(** X19: the chips under the selection. Removing a tag's chip leaves the
    tag unselected and every other tag as it was, doing it again changes
    nothing, and for a selected tag it gives the selection a click in the
    taxonomy browser gives. Unlike the browser and the architect radio, the
    chips of a tag and of the architect leave a displayed search error in
    place. *)
Theorem X19_chips :
  forall (tag : string) (s : SearchPage.State),
    JSSet.wf (SearchPage.selectedTags s) ->
    let s' := SearchPage.removeTag tag s in
    JSSet.has (SearchPage.selectedTags s') tag = false
    /\ (forall x, x <> tag ->
                  JSSet.has (SearchPage.selectedTags s') x
                  = JSSet.has (SearchPage.selectedTags s) x)
    /\ SearchPage.removeTag tag s' = s'
    /\ (JSSet.has (SearchPage.selectedTags s) tag = true ->
        SearchPage.selectedTags s'
        = SearchPage.selectedTags (SearchPage.handleTagSelect tag s))
    /\ SearchPage.searchError s' = SearchPage.searchError s
    /\ SearchPage.searchError (SearchPage.removeArchitect s)
       = SearchPage.searchError s
    /\ SearchPage.selectedArchitect (SearchPage.removeArchitect s) = None
    /\ SearchPage.searchError (SearchPage.handleTagSelect tag s) = None
    /\ SearchPage.searchError (SearchPage.handleArchitectSelect None s) = None.
Proof.
  intros tag s Hwf s'. subst s'.
  assert (Hsel : SearchPage.selectedTags (SearchPage.removeTag tag s)
                 = JSSet.delete (SearchPage.selectedTags s) tag).
  { simpl. now rewrite copy_wf. }
  assert (Habs : ~ In tag (JSSet.delete (SearchPage.selectedTags s) tag)).
  { rewrite delete_In. tauto. }
  split; [rewrite Hsel; now apply has_false |].
  split.
  { intros x Hx. rewrite Hsel.
    destruct (JSSet.has (SearchPage.selectedTags s) x) eqn:E.
    - apply has_In. rewrite delete_In. apply has_In in E. tauto.
    - apply has_false. rewrite delete_In. apply has_false in E. tauto. }
  split.
  { unfold SearchPage.removeTag at 1. rewrite Hsel.
    rewrite copy_wf by now apply delete_wf.
    rewrite (delete_absent _ _ Habs).
    unfold SearchPage.removeTag. simpl. now rewrite copy_wf. }
  split.
  { intros Hhas. rewrite Hsel. simpl. rewrite copy_wf by assumption.
    now rewrite Hhas. }
  repeat split.
Qed.

Lemma X19_chips_witness :
  let s := fst (SearchPage.handleSearch Scenario.dataset
                  {| tags := ["Arch"; "Nonexistent"]; architect := None |}
                  (SearchPage.handleTagSelect "Nonexistent"
                     (SearchPage.handleTagSelect "Arch"
                        (SearchPage.mount Scenario.dataset)))) in
  SearchPage.searchError s = Some SearchPage.noImagesFound
  /\ SearchPage.selectedTags (SearchPage.removeTag "Nonexistent" s) = ["Arch"]
  /\ SearchPage.searchError (SearchPage.removeTag "Nonexistent" s)
     = Some SearchPage.noImagesFound.
Proof.
  intros s. split; [reflexivity |]. split; [reflexivity |].
  assert (Hwf : JSSet.wf (SearchPage.selectedTags s)).
  { repeat constructor; simpl; intuition discriminate. }
  destruct (X19_chips "Nonexistent" s Hwf) as [_ [_ [_ [_ [H _]]]]].
  rewrite H. reflexivity.
Defined.

Lemma filter_StronglySorted {A : Type} (R : A -> A -> Prop) (p : A -> bool)
  (l : list A) :
  StronglySorted R l -> StronglySorted R (filter p l).
Proof.
  induction 1 as [| x l Hs IH Hall]; simpl; [constructor |].
  destruct (p x); [| assumption].
  constructor; [assumption |].
  rewrite Forall_forall in *. intros y Hy. apply Hall.
  apply filter_In in Hy. tauto.
Qed.

(** X20: the architect radio list under a filter text. Whatever the
    dataset, the text and the case mapping, the architects listed are
    architects of the option list, in its order: sorted and without
    duplicates. With an empty filter text the whole list is shown, and the
    "No architects match filter." line appears exactly when the text is not
    empty and nothing is listed. The quick-search architect slot, given the
    same text, lists the same architects. *)
Theorem X20_filtered_architects :
  forall (toLowerCase : string -> string) (images : list ImageRecord)
         (filterText : string),
    let architects := architectList_effect images [] in
    let shown :=
      TextFilter.filteredArchitects toLowerCase architects filterText in
    incl shown architects
    /\ NoDup shown
    /\ StronglySorted sort_le shown
    /\ TextFilter.filteredArchitects toLowerCase architects "" = architects
    /\ (TextFilter.noMatchShown toLowerCase architects filterText = true
        <-> shown = [] /\ filterText <> "")
    /\ TextFilter.filteredOptions toLowerCase architects filterText = shown.
Proof.
  intros toLowerCase images filterText architects shown.
  subst shown architects.
  pose proof (architectList_effect_NoDup images) as Hnd.
  pose proof (architectList_effect_sorted images) as Hs.
  unfold TextFilter.noMatchShown, TextFilter.filteredArchitects,
    TextFilter.filteredOptions.
  destruct filterText as [| ch t]; simpl JS.truthy_string; cbv iota; simpl negb;
    cbv iota.
  - split; [apply incl_refl |]. split; [assumption |].
    split; [assumption |]. split; [reflexivity |].
    rewrite andb_false_r.
    split; [split; [discriminate | intros [_ H]; congruence] | reflexivity].
  - split; [apply incl_filter |]. split; [now apply NoDup_filter |].
    split; [now apply filter_StronglySorted |]. split; [reflexivity |].
    rewrite andb_true_r. unfold JS.length.
    destruct (filter _ _) as [| x l]; simpl List.length.
    + split; [| reflexivity].
      split; [intros _; split; [reflexivity | discriminate] | reflexivity].
    + split; [| reflexivity].
      split; [intros H; apply Z.eqb_eq in H; lia | intros [H _]; discriminate].
Qed.

(** ** The sidebar draft after a commit, and stepping back and forth *)

(** X21: whenever an event changes the criteria object and the results
    page is shown, the sidebar draft is reseeded from the new active
    criterion (its tags, each once, and its architect, null for the empty
    string): edits of the draft that were not submitted are dropped. A
    rejected Update Search keeps the draft as it was edited. *)
Theorem X21_sidebar_reseeded :
  forall (st : App.State) (e : App.Event),
    settled st ->
    let st' := App.step e st in
    (App.criteriaId st' <> App.criteriaId st ->
     forall r', App.page st' = App.ResultsPageM r' ->
       ResultsPage.sidebarSelectedTags r'
       = JSSet.of_array (tags (App.currentSearchCriteria st'))
       /\ ResultsPage.sidebarSelectedArchitect r'
          = JS.or_null (architect (App.currentSearchCriteria st')))
    /\ (App.criteriaId st' = App.criteriaId st ->
        e = App.UpdateSearch ->
        forall r r', App.page st = App.ResultsPageM r ->
          App.page st' = App.ResultsPageM r' ->
          ResultsPage.sidebarSelectedTags r'
          = ResultsPage.sidebarSelectedTags r
          /\ ResultsPage.sidebarSelectedArchitect r'
             = ResultsPage.sidebarSelectedArchitect r).
Proof.
  intros st e [Hid Hpage] st'. subst st'. split.
  - intros Hchange r' Hr'. unfold App.step in *.
    destruct (render_criteria (App.dispatch e st)) as [Hv [Hc [Hi _]]].
    rewrite Hc. rewrite Hi in Hchange.
    destruct (dispatch_cases e st)
      as [_ [Hkind [[_ [_ [Hi1 _]]] | [Hi1 _]]]]; [congruence |].
    unfold App.render in Hr'. revert Hr' Hkind Hpage.
    destruct (App.view (App.dispatch e st));
      destruct (App.page st) as [s | r];
      destruct (App.page (App.dispatch e st)) as [s1 | r1] eqn:Hp1;
      simpl; intros Hr' Hkind Hpage; try contradiction; try discriminate;
      try congruence; injection Hr' as <-; simpl; auto.
    destruct Hpage as [_ He]. unfold ResultsPage.update.
    destruct (Nat.eqb_spec (ResultsPage.effectCriteria r1)
                           (App.criteriaId (App.dispatch e st)));
      [lia | simpl; auto].
  - intros Hsame -> r r' Hr Hr'. rewrite Hr in Hpage.
    destruct Hpage as [Hv He].
    unfold App.step, App.dispatch in *. rewrite Hr in *.
    destruct (ResultsPage.updateDisabled r).
    + unfold App.render in Hr'. rewrite Hv, Hr in Hr'. simpl in Hr'.
      unfold ResultsPage.update in Hr'. rewrite He, Nat.eqb_refl in Hr'.
      injection Hr' as <-. auto.
    + unfold App.resultsPage_handleUpdateSearch,
        ResultsPage.handleUpdateSearch in *.
      destruct (_ >? 0)%Z.
      * simpl in Hsame.
        destruct (render_criteria
                    (App.onSearch (Some (ResultsPage.newCriteria r))
                       (App.setPage
                          (App.ResultsPageM
                             (ResultsPage.setSidebar false
                                (ResultsPage.sidebarSelectedTags r)
                                (ResultsPage.sidebarSelectedArchitect r)
                                None r)) st))) as [_ [_ [Hi _]]].
        simpl in Hi. lia.
      * unfold App.render in Hr'. simpl in Hr'. rewrite Hv in Hr'.
        unfold ResultsPage.update in Hr'. simpl in Hr'.
        rewrite He, Nat.eqb_refl in Hr'. injection Hr' as <-. auto.
Qed.

Lemma X21_sidebar_reseeded_witness :
  let st := run [App.SelectTag "Arch"; App.SearchImages; App.ToggleSidebar;
                 App.SidebarSelectTag "Window"]
                (App.loaded Scenario.dataset) in
  let pivoted := App.step App.ConfirmNewSearch
                   (App.step (App.OtherTagClick "Arch") st) in
  settled st
  /\ (forall r, App.page st = App.ResultsPageM r ->
                ResultsPage.sidebarSelectedTags r = ["Arch"; "Window"])
  /\ (forall r', App.page pivoted = App.ResultsPageM r' ->
                 ResultsPage.sidebarSelectedTags r' = ["Arch"]).
Proof.
  intros st pivoted.
  assert (Hst : settled st).
  { unfold settled. simpl. split; [lia | split; reflexivity]. }
  split; [exact Hst |]. split.
  - intros r Hr. injection Hr as <-. reflexivity.
  - intros r' Hr'.
    assert (Hst1 : settled (App.step (App.OtherTagClick "Arch") st))
      by now apply step_settled.
    destruct (X21_sidebar_reseeded _ App.ConfirmNewSearch Hst1) as [H _].
    destruct (H ltac:(discriminate) r' Hr') as [Htags _].
    exact Htags.
Defined.

Lemma navigationShown_in_range (st : App.State) (r : ResultsPage.State) :
  (0 <= ResultsPage.currentIndex r
   < ResultsPage.totalImages (App.images st) (App.currentSearchCriteria st))%Z ->
  App.navigationShown r st
  = (ResultsPage.totalImages (App.images st) (App.currentSearchCriteria st)
     >? 1)%Z.
Proof.
  intros Hi. unfold App.navigationShown, ResultsPage.currentImage.
  replace (_ >? 0)%Z with true by (symmetry; apply Z.gtb_lt; lia).
  now destruct (index_in_range _ _ Hi) as [img ->].
Qed.

Lemma setCurrentIndex_back (f g : Z -> Z) (r : ResultsPage.State) :
  f (g (ResultsPage.currentIndex r)) = ResultsPage.currentIndex r ->
  ResultsPage.setCurrentIndex f (ResultsPage.setCurrentIndex g r) = r.
Proof.
  intros H. destruct r. unfold ResultsPage.setCurrentIndex. simpl in *.
  now rewrite H.
Qed.

Lemma setPage_twice (p q : App.Page) (st : App.State) :
  App.setPage p (App.setPage q st) = App.setPage p st.
Proof. reflexivity. Qed.

(** Next followed by Previous, and Previous followed by Next, give back
    the cells of the application state. *)
Lemma next_previous_state :
  forall (imgs : list ImageRecord) (st : App.State),
    App.reachable imgs st ->
    App.step App.Previous (App.step App.Next st) = st
    /\ App.step App.Next (App.step App.Previous st) = st.
Proof.
  intros imgs st Hreach.
  pose proof (reachable_page_invariant imgs st Hreach) as Hinv.
  destruct (reachable_invariant imgs st Hreach) as [_ [Hst _]].
  assert (Hsame : App.render st = st) by now apply render_of_settled.
  unfold page_invariant in Hinv.
  destruct (App.page st) as [s | r] eqn:Hp.
  - unfold App.step, App.dispatch. rewrite Hp, Hsame, Hp, Hsame. auto.
  - destruct Hinv as [Hv [He [_ [_ Hi]]]].
    set (N := ResultsPage.totalImages (App.images st)
                (App.currentSearchCriteria st)) in *.
    assert (Hkeep : forall r', ResultsPage.effectCriteria r'
                               = ResultsPage.effectCriteria r ->
              App.render (App.setPage (App.ResultsPageM r') st)
              = App.setPage (App.ResultsPageM r') st).
    { intros r' Hr'. apply render_settled_page; [assumption |].
      now rewrite Hp. }
    assert (Hback : App.setPage (App.ResultsPageM r) st = st)
      by (rewrite <- Hp; apply setPage_same).
    destruct (next_previous_inverse N r Hi) as [H1 [H2 [H3 H4]]].
    unfold App.step, App.dispatch. rewrite Hp.
    rewrite (navigationShown_in_range st r Hi). fold N.
    destruct (N >? 1)%Z eqn:HN.
    + rewrite !Hkeep by reflexivity. simpl App.page. cbv beta iota.
      rewrite (navigationShown_in_range
                 (App.setPage (App.ResultsPageM (ResultsPage.handleNext N r))
                              st)) by exact H3.
      rewrite (navigationShown_in_range
                 (App.setPage
                    (App.ResultsPageM (ResultsPage.handlePrevious N r)) st))
        by exact H4.
      simpl App.images. simpl App.currentSearchCriteria. fold N. rewrite HN.
      rewrite !setPage_twice, !Hkeep by reflexivity.
      unfold ResultsPage.handleNext, ResultsPage.handlePrevious in *.
      rewrite !setCurrentIndex_back by assumption.
      now rewrite Hback.
    + rewrite Hsame, Hp.
      rewrite (navigationShown_in_range st r Hi). fold N. rewrite HN.
      auto.
Qed.

Lemma reachable_shown (imgs : list ImageRecord) (st : App.State) (i : Z) :
  App.reachable imgs st -> cursor st = Some i ->
  exists img, shownImage st = Some img.
Proof.
  intros Hreach Hc.
  pose proof (reachable_page_invariant imgs st Hreach) as Hinv.
  unfold page_invariant, shownImage, cursor in *.
  destruct (App.page st) as [s | r]; [discriminate |].
  destruct Hinv as [_ [_ [_ [_ Hi]]]].
  destruct (index_in_range _ _ Hi) as [img Himg]. exists img.
  unfold ResultsPage.currentImage.
  replace (_ >? 0)%Z with true by (symmetry; apply Z.gtb_lt; lia).
  exact Himg.
Qed.

Lemma cursor_moved_sym (a b : App.State) :
  cursor_moved a b = cursor_moved b a.
Proof.
  unfold cursor_moved. destruct (cursor a), (cursor b); auto.
  now rewrite Z.eqb_sym.
Qed.

Lemma navigation_frame_there_and_back (imgs : list ImageRecord)
  (st st1 : App.State) (s : ResultsView.ImageStatus) :
  App.reachable imgs st -> App.reachable imgs st1 ->
  navigation_frame st1 st (navigation_frame st st1 s)
  = if cursor_moved st st1
    then {| ResultsView.imageLoading := true;
            ResultsView.imageError := false |}
    else s.
Proof.
  intros Hst Hst1. unfold navigation_frame.
  rewrite (cursor_moved_sym st1 st).
  destruct (cursor_moved st st1) eqn:Hm; [| reflexivity].
  unfold cursor_moved in Hm.
  destruct (cursor st) as [i |] eqn:Hc; [| discriminate].
  destruct (reachable_shown imgs st i Hst Hc) as [img ->]. reflexivity.
Qed.

Lemma navigation_moves (imgs : list ImageRecord) (st : App.State)
  (r : ResultsPage.State) :
  App.reachable imgs st ->
  App.page st = App.ResultsPageM r ->
  let N := ResultsPage.totalImages imgs (App.currentSearchCriteria st) in
  ((1 < N)%Z ->
   cursor_moved st (App.step App.Next st) = true
   /\ cursor_moved st (App.step App.Previous st) = true)
  /\ ((N <= 1)%Z ->
      App.step App.Next st = st /\ App.step App.Previous st = st).
Proof.
  intros Hreach Hp N. subst N.
  pose proof (reachable_page_invariant imgs st Hreach) as Hinv.
  destruct (reachable_invariant imgs st Hreach) as [Himg [Hst _]].
  unfold page_invariant in Hinv. rewrite Hp in Hinv.
  destruct Hinv as [Hv [He [_ [_ Hi]]]]. rewrite <- Himg.
  set (N := ResultsPage.totalImages (App.images st)
              (App.currentSearchCriteria st)) in *.
  assert (Hkeep : forall r', ResultsPage.effectCriteria r'
                             = ResultsPage.effectCriteria r ->
            App.render (App.setPage (App.ResultsPageM r') st)
            = App.setPage (App.ResultsPageM r') st).
  { intros r' Hr'. apply render_settled_page; [assumption |].
    now rewrite Hp. }
  unfold App.step, App.dispatch. rewrite Hp.
  rewrite (navigationShown_in_range st r Hi). fold N. split.
  - intros HN.
    replace (N >? 1)%Z with true by (symmetry; apply Z.gtb_lt; lia).
    rewrite !Hkeep by reflexivity.
    unfold cursor_moved, cursor. rewrite Hp. simpl App.page. cbv beta iota.
    rewrite handleNext_index, handlePrevious_index by lia.
    split; apply negb_true_iff, Z.eqb_neq.
    + destruct (Z.eq_dec (ResultsPage.currentIndex r + 1) N) as [E | E].
      * rewrite E, Z.mod_same by lia. lia.
      * rewrite Z.mod_small by lia. lia.
    + destruct (Z.eq_dec (ResultsPage.currentIndex r) 0) as [E | E].
      * rewrite E. replace (0 - 1 + N)%Z with (N - 1)%Z by lia.
        rewrite Z.mod_small by lia. lia.
      * replace (ResultsPage.currentIndex r - 1 + N)%Z
          with (ResultsPage.currentIndex r - 1 + 1 * N)%Z by lia.
        rewrite Z.mod_add by lia. rewrite Z.mod_small by lia. lia.
  - intros HN.
    replace (N >? 1)%Z with false
      by (symmetry; rewrite Z.gtb_ltb; apply Z.ltb_ge; lia).
    rewrite render_of_settled by assumption. auto.
Qed.

(** X22: Next followed by Previous, and Previous followed by Next, in every
    state the application reaches. They give back the cursor, the displayed
    image, the criterion, the view, the sidebar draft and the pending pivot.
    The image frame is not given back: with more than one result the cursor
    moves at each of the two steps, the effect on the cursor and the image
    runs, and the frame ends as loading, without failure notice, whatever it
    showed before; with at most one result neither step changes anything and
    the frame is untouched. *)
Theorem X22_next_previous_round_trip :
  forall (imgs : list ImageRecord) (st : App.State)
         (s : ResultsView.ImageStatus),
    App.reachable imgs st ->
    let loadingStatus :=
      {| ResultsView.imageLoading := true;
         ResultsView.imageError := false |} in
    let next := App.step App.Next st in
    let back := App.step App.Previous next in
    let prev := App.step App.Previous st in
    let forth := App.step App.Next prev in
    back = st
    /\ forth = st
    /\ navigation_frame next back (navigation_frame st next s)
       = (if cursor_moved st next then loadingStatus else s)
    /\ navigation_frame prev forth (navigation_frame st prev s)
       = (if cursor_moved st prev then loadingStatus else s)
    /\ (forall r, App.page st = App.ResultsPageM r ->
          ((1 < ResultsPage.totalImages imgs (App.currentSearchCriteria st))%Z
           -> cursor_moved st next = true /\ cursor_moved st prev = true)
          /\ ((ResultsPage.totalImages imgs (App.currentSearchCriteria st)
               <= 1)%Z
              -> next = st /\ prev = st)).
Proof.
  intros imgs st s Hreach loadingStatus next back prev forth.
  subst loadingStatus next back prev forth.
  destruct (next_previous_state imgs st Hreach) as [Hback Hforth].
  split; [exact Hback |]. split; [exact Hforth |].
  rewrite Hback, Hforth.
  assert (Hnext : App.reachable imgs (App.step App.Next st))
    by now constructor.
  assert (Hprev : App.reachable imgs (App.step App.Previous st))
    by now constructor.
  split; [now apply (navigation_frame_there_and_back imgs) |].
  split; [now apply (navigation_frame_there_and_back imgs) |].
  intros r Hp. exact (navigation_moves imgs st r Hreach Hp).
Qed.

Lemma X22_next_previous_round_trip_witness :
  let st := run [App.SelectTag "Arch"; App.SearchImages; App.Next]
                (App.loaded Scenario.dataset) in
  let visible := ResultsView.handleImageLoad ResultsView.initialStatus in
  shownImage st = Some Scenario.B
  /\ shownImage (App.step App.Next st) = Some Scenario.A
  /\ App.step App.Previous (App.step App.Next st) = st
  /\ ResultsView.imageVisible visible = true
  /\ ResultsView.loadingShown
       (navigation_frame (App.step App.Next st)
          (App.step App.Previous (App.step App.Next st))
          (navigation_frame st (App.step App.Next st) visible)) = true.
Proof.
  intros st visible. split; [reflexivity |]. split; [reflexivity |].
  assert (Hreach : App.reachable Scenario.dataset st)
    by (apply reachable_run; constructor).
  destruct (X22_next_previous_round_trip Scenario.dataset st visible Hreach)
    as [H1 [_ [H3 _]]].
  split; [exact H1 |]. split; [reflexivity |].
  rewrite H3. reflexivity.
Defined.

(** X23: the quick-search button never does nothing. It is rendered when
    some slot is filled; if the architect slot, when filled, holds a
    non-empty name (every architect option is one), pressing it submits a
    criterion. With only the architect slot filled, and by the empty
    string, it would be rendered and submit nothing. *)
Theorem X23_quick_search_button :
  forall slotValues : FilterSentence.SlotValues,
    (forall a, FilterSentence.get slotValues "architect" = Some a ->
               a <> "") ->
    Slots.searchButtonShown slotValues = true ->
    exists c, FilterSentence.handleSearch slotValues = Some c.
Proof.
  intros slotValues Harch Hshown.
  unfold FilterSentence.handleSearch.
  destruct slotValues as [| [k v] rest]; [discriminate Hshown |].
  simpl filter. simpl FilterSentence.get in *.
  destruct (String.eqb k "architect") eqn:Hk; simpl negb; cbv iota.
  - assert (Hv : v <> "") by now apply Harch.
    unfold JS.or_null at 1. simpl JS.truthy.
    destruct v as [| ch v]; [congruence |]. simpl JS.truthy_string.
    rewrite orb_true_r. eauto.
  - simpl map. rewrite length_cons_positive. simpl. eauto.
Qed.

Lemma X23_quick_search_button_witness :
  (exists c, FilterSentence.handleSearch [("architect", "Foo")] = Some c)
  /\ Slots.searchButtonShown [("architect", "")] = true
  /\ FilterSentence.handleSearch [("architect", "")] = None.
Proof.
  split; [| split; reflexivity].
  apply X23_quick_search_button; [| reflexivity].
  intros a H. injection H as <-. discriminate.
Defined.

(** ** The criteria the application builds *)

(** No criterion the application builds has the empty string as its
    architect: the quick search and the sidebar seed read it as null, the
    pivot and Home pass null, and the radios offer null and the names of the
    architect list, which holds no empty string. *)
Lemma built_criteria_named :
  (forall slotValues c,
      FilterSentence.handleSearch slotValues = Some c ->
      architect c <> Some "")
  /\ (forall r r' c,
         ResultsPage.confirmNewSearch r = (r', Some c) -> architect c = None)
  /\ architect emptyCriterion = None
  /\ (forall images c id,
         ResultsPage.sidebarSelectedArchitect (ResultsPage.mount images c id)
         <> Some "")
  /\ (forall c id r,
         ResultsPage.sidebarSelectedArchitect
           (ResultsPage.searchCriteria_effects c id r) <> Some "")
  /\ (forall images selected a,
         In a (architectList_effect images []) ->
         ArchitectSelector.handleChange selected (Some a) <> Some "")
  /\ (forall selected, ArchitectSelector.handleChange selected None = None).
Proof.
  split; [intros slotValues c H; apply (quickSearch_nonEmpty _ _ H) |].
  split.
  { intros r r' c. unfold ResultsPage.confirmNewSearch.
    destruct (ResultsPage.tagToSearch r) as [tag |]; [| discriminate].
    destruct (JS.truthy_string tag); [| discriminate].
    intros H. now injection H as _ <-. }
  split; [reflexivity |].
  split.
  { intros images c id. simpl. unfold JS.or_null.
    now destruct (architect c) as [[| ch a] |]. }
  split.
  { intros c id r. simpl. unfold JS.or_null.
    now destruct (architect c) as [[| ch a] |]. }
  split.
  { intros images selected a Hin. apply architectList_effect_In in Hin.
    destruct Hin as [Hne _]. unfold ArchitectSelector.handleChange.
    destruct (JS.strict_equals selected (Some a)); congruence. }
  intros selected. unfold ArchitectSelector.handleChange.
  now destruct selected.
Qed.
